(** * JavaMaster AI: the quiz application, its services and its editor

    A shallow embedding of the TypeScript sources:
    - [services/geminiService] (the three LLM operations and [cleanCode];
      its text follows the [Loading] component in [components/Loading.tsx]),
    - [components/Editor] ([updateDecorations]),
    - [App] (the quiz state, its handlers and the timer effect),
    - [types] (the records and enumerations).

    JavaScript strings are sequences of UTF-16 code units; they are modelled
    as [list N].  Regular-expression replacement is modelled once, by a
    scanner that follows [String.prototype.replace] with a global pattern,
    and each pattern of the source is a matcher for that scanner. *)

From Stdlib Require Import NArith ZArith QArith Lia Bool List Ascii String Sorted.
From stdpp Require Import base gmap list strings pretty.

Set Default Goal Selector "!".

(** ** JavaScript strings *)

Module Js.

Abbreviation str := (list N).

(** A source literal (ASCII only) as code units. *)
Fixpoint js (s : string) : str :=
  match s with
  | EmptyString => []
  | String a r => N_of_ascii a :: js r
  end.

(** Character classes used by the patterns of the source. *)
Definition is_slash (c : N) : bool := N.eqb c 47.
Definition is_star (c : N) : bool := N.eqb c 42.
Definition is_underscore (c : N) : bool := N.eqb c 95.
Definition is_nl (c : N) : bool := N.eqb c 10.

(** The class [[\r\n]]. *)
Definition is_crlf (c : N) : bool := N.eqb c 13 || N.eqb c 10.

(** ECMAScript LineTerminator: LF, CR, LS, PS.  The dot of a pattern
    without the [s] flag matches everything else; [^] and [$] with the [m]
    flag look for these. *)
Definition is_lt (c : N) : bool := is_crlf c || N.eqb c 8232 || N.eqb c 8233.

(** The class [\s], also the characters removed by [trim]: WhiteSpace and
    LineTerminator. *)
Definition is_ws (c : N) : bool :=
  is_lt c || N.eqb c 9 || N.eqb c 11 || N.eqb c 12 || N.eqb c 32 || N.eqb c 160
  || N.eqb c 5760 || (N.leb 8192 c && N.leb c 8202) || N.eqb c 8239
  || N.eqb c 8287 || N.eqb c 12288 || N.eqb c 65279.

Definition starts (p : N -> bool) (s : str) : bool :=
  match s with
  | c :: _ => p c
  | [] => false
  end.

(** *** Global replacement

    A matcher answers, for the character before the current position
    ([None] at the start of the input) and the rest of the input, the
    length of the match that starts here, if there is one. *)
Definition matcher := option N -> str -> option nat.

(** [s.replace(/re/g, repl)] with a replacement string without [$]
    patterns: matches are looked for from left to right, the search resumes
    after each match, unmatched characters are copied.  [skip] counts the
    characters of the current match still to be consumed.  After an empty
    match the scanner copies one character and moves on, as [lastIndex] is
    advanced by one. *)
Fixpoint replace_from (m : matcher) (repl : str) (skip : nat) (prev : option N)
    (s : str) : str :=
  match s with
  | [] =>
      match skip, m prev [] with
      | 0, Some _ => repl
      | _, _ => []
      end
  | c :: t =>
      match skip with
      | S k => replace_from m repl k (Some c) t
      | 0 =>
          match m prev s with
          | Some (S k) => repl ++ replace_from m repl k (Some c) t
          | Some 0 => repl ++ c :: replace_from m repl 0 (Some c) t
          | None => c :: replace_from m repl 0 (Some c) t
          end
      end
  end.

Definition replace (m : matcher) (repl : str) (s : str) : str :=
  replace_from m repl 0 None s.

(** *** The four patterns of [cleanCode] *)

(** [.*] : the characters up to the next line terminator. *)
Fixpoint line_rest_len (s : str) : nat :=
  match s with
  | c :: t => if is_lt c then 0 else S (line_rest_len t)
  | [] => 0
  end.

(** [/\/\/.*$/gm] : two slashes and the rest of the line.  After the greedy
    [.*] the position is the end of the input or a line terminator, so [$]
    holds there. *)
Definition re_line_comment : matcher := fun _ s =>
  match s with
  | a :: b :: r =>
      if is_slash a && is_slash b then Some (2 + line_rest_len r) else None
  | _ => None
  end.

(** [[\s\S]*?\*\/] : the shortest run of any characters followed by a star
    and a slash; the length through that first closing pair. *)
Fixpoint close_len (s : str) : option nat :=
  match s with
  | a :: t =>
      if is_star a && starts is_slash t then Some 2
      else match close_len t with
           | Some n => Some (S n)
           | None => None
           end
  | [] => None
  end.

(** [/\/\*[\s\S]*?\*\//g] *)
Definition re_block_comment : matcher := fun _ s =>
  match s with
  | a :: b :: r =>
      if is_slash a && is_star b then
        match close_len r with
        | Some n => Some (2 + n)
        | None => None
        end
      else None
  | _ => None
  end.

(** [\s*[\r\n]] : the greedy [\s*] takes the whole run of white space and
    gives characters back until a CR or LF follows: the match ends at the
    last CR or LF of the run. *)
Fixpoint blank_len (s : str) : option nat :=
  match s with
  | c :: t =>
      if is_ws c then
        match blank_len t with
        | Some n => Some (S n)
        | None => if is_crlf c then Some 1 else None
        end
      else None
  | [] => None
  end.

(** [^] with the [m] flag. *)
Definition at_line_start (prev : option N) : bool :=
  match prev with
  | None => true
  | Some p => is_lt p
  end.

(** [/^\s*[\r\n]/gm] *)
Definition re_blank_line : matcher := fun prev s =>
  if at_line_start prev then blank_len s else None.

Fixpoint nl_run (s : str) : nat :=
  match s with
  | c :: t => if is_nl c then S (nl_run t) else 0
  | [] => 0
  end.

(** [/\n{3,}/g] *)
Definition re_newlines : matcher := fun _ s =>
  let n := nl_run s in if 3 <=? n then Some n else None.

(** *** [String.prototype.trim] *)

Fixpoint trimStart (s : str) : str :=
  match s with
  | c :: t => if is_ws c then trimStart t else s
  | [] => []
  end.

Definition trimEnd (s : str) : str := rev (trimStart (rev s)).

Definition trim (s : str) : str := trimEnd (trimStart s).

End Js.

Import Js.

(** ** services/geminiService: [cleanCode] *)

Definition strip_line_comments (code : str) : str := replace re_line_comment [] code.
Definition strip_block_comments (code : str) : str := replace re_block_comment [] code.
Definition squeeze_blank_lines (code : str) : str := replace re_blank_line [10%N] code.
Definition collapse_newlines (code : str) : str := replace re_newlines [10%N; 10%N] code.

Definition cleanCode (code : str) : str :=
  trim (collapse_newlines (squeeze_blank_lines (strip_block_comments
    (strip_line_comments code)))).

(** ** types *)

Inductive Difficulty := BEGINNER | INTERMEDIATE | ADVANCED.

Definition Difficulty_value (d : Difficulty) : string :=
  match d with
  | BEGINNER => "Beginner"
  | INTERMEDIATE => "Intermediate"
  | ADVANCED => "Advanced"
  end.

Inductive TaskType := FILL_IN_BLANK | BUG_FIX | PREDICT_OUTPUT.

Definition TaskType_value (t : TaskType) : string :=
  match t with
  | FILL_IN_BLANK => "Fill in the Blank"
  | BUG_FIX => "Bug Fix"
  | PREDICT_OUTPUT => "Predict Output"
  end.

Inductive Topic :=
  | VARIABLES | LOOPS | ARRAYS | OOP | METHODS | EXCEPTIONS | STRINGS | FILE_IO
  | COLLECTIONS.

Definition Topic_value (t : Topic) : string :=
  match t with
  | VARIABLES => "Variables & Data Types"
  | LOOPS => "Loops (for, while)"
  | ARRAYS => "Arrays"
  | OOP => "OOP Concepts (Classes, Objects)"
  | METHODS => "Methods & Recursion"
  | EXCEPTIONS => "Exception Handling"
  | STRINGS => "String Manipulation"
  | FILE_IO => "File I/O"
  | COLLECTIONS => "Java Collections Framework"
  end.

Inductive Language := English | Bulgarian.

Definition Language_value (l : Language) : string :=
  match l with
  | English => "English"
  | Bulgarian => "Bulgarian"
  end.

Record QuizConfig := {
  difficulty : Difficulty;
  topic : Topic;
  taskType : TaskType;
  language : Language
}.

Record GeneratedQuestion := {
  title : str;
  instructions : str;
  codeSnippet : str;
  initialCode : str;
  solution : str;
  explanation : str
}.

(** A JavaScript number as a JSON text can denote it: an IEEE double
    [m * 2^e] ([Finite 0 e] is the positive zero), the negative zero (from
    the literal -0), or an infinity (from a literal that overflows). *)
Inductive number := Finite (m e : Z) | NegativeZero | Infinite (negative : bool).

Definition int (z : Z) : number := Finite z 0.

Module SimulationResult.
Record t := { output : str; isCorrect : bool; feedback : str }.
End SimulationResult.

Module ExamResult.
Record t := {
  grade : number;
  label : str;
  feedback : str;
  styleScore : number;
  correctnessScore : number
}.
End ExamResult.

(** ** JSON values, as [JSON.parse] returns them *)

#[warnings="-register-all"]
Inductive value :=
  | JNull
  | JBool (b : bool)
  | JNumber (n : number)
  | JString (s : str)
  | JArray (l : list value)
  | JObject (m : gmap str value).

(** A result of the declared type, as the object that [JSON.parse] makes
    of a response that follows the schema. *)
Definition SimulationResult_value (r : SimulationResult.t) : value :=
  JObject (list_to_map
    [ (js "output", JString (SimulationResult.output r));
      (js "isCorrect", JBool (SimulationResult.isCorrect r));
      (js "feedback", JString (SimulationResult.feedback r)) ]).

Definition ExamResult_value (r : ExamResult.t) : value :=
  JObject (list_to_map
    [ (js "grade", JNumber (ExamResult.grade r));
      (js "label", JString (ExamResult.label r));
      (js "feedback", JString (ExamResult.feedback r));
      (js "styleScore", JNumber (ExamResult.styleScore r));
      (js "correctnessScore", JNumber (ExamResult.correctnessScore r)) ]).

(** *** What JavaScript does with such a value

    [ToBoolean], as [!v], [v && ...] and [v || ...] apply it: [null],
    [false], the two zeros and the empty string are falsy; every array and
    every object is truthy. *)
Definition number_is_zero (n : number) : bool :=
  match n with
  | Finite m _ => (m =? 0)%Z
  | NegativeZero => true
  | Infinite _ => false
  end.

Definition ToBoolean (v : value) : bool :=
  match v with
  | JNull => false
  | JBool b => b
  | JNumber n => negb (number_is_zero n)
  | JString [] => false
  | JString (_ :: _) => true
  | JArray _ | JObject _ => true
  end.

(** [Object.is] on two numbers: the same number, the two zeros being
    different. *)
Definition number_is (a b : number) : bool :=
  match a, b with
  | Finite m1 e1, Finite m2 e2 =>
      let e := Z.min e1 e2 in
      (m1 * 2 ^ (e1 - e) =? m2 * 2 ^ (e2 - e))%Z
  | NegativeZero, NegativeZero => true
  | Infinite n1, Infinite n2 => Bool.eqb n1 n2
  | _, _ => false
  end.

(** ** services/geminiService *)

Module GeminiService.

(** The values a rejected promise or a [throw] carries here. *)
Inductive exn :=
  | Error (message : str)
  | SyntaxError
  | TypeError
  | Rejection (reason : str).

#[warnings="-register-all"]
Inductive Schema :=
  | OBJECT (properties : list (string * Schema)) (required : list string)
  | STRING (description : string)
  | INTEGER (description : string)
  | BOOLEAN (description : string).

Record GoogleGenAI := { apiKey : str }.

Module Request.
Record config := {
  systemInstruction : str;
  responseMimeType : string;
  responseSchema : Schema;
  temperature : Q
}.
Record t := { model : string; contents : str; config_ : config }.
End Request.

(** How the promise of [ai.models.generateContent] settles: with a response,
    of which only the [text] getter is read ([None] is [undefined]), or with
    a rejection. *)
Inductive settled :=
  | Fulfilled (text : option str)
  | Rejected (reason : exn).

(** An operation of the service: it returns, throws, or awaits one call of
    [generateContent] and goes on with how the call settles. *)
Inductive io (A : Type) : Type :=
  | Return (a : A)
  | Throw (e : exn)
  | GenerateContent (ai : GoogleGenAI) (params : Request.t) (k : settled -> io A).

Arguments Return {A} a.
Arguments Throw {A} e.
Arguments GenerateContent {A} ai params k.

(** Running an operation against a provider: the requests sent, in order,
    and the outcome. *)
Fixpoint run {A : Type} (provider : GoogleGenAI -> Request.t -> settled)
    (p : io A) : list Request.t * (exn + A) :=
  match p with
  | Return a => ([], inr a)
  | Throw e => ([], inl e)
  | GenerateContent ai params k =>
      let (sent, r) := run provider (k (provider ai params)) in
      (params :: sent, r)
  end.

Definition dquote : str := [34%N].

(** Template interpolation of a counter: the decimal digits. *)
Definition Number_toString (n : nat) : str := js (pretty n).

Record Metrics := { timeSpentSeconds : nat; attempts : nat }.

Definition SENIOR_JAVA_DEV_PROMPT : str :=
  js "
You are an expert Senior Java Developer and Code Reviewer specialized in Clean Code and Code Style standards (Google Java Style Guide / Oracle Conventions).

Your goal is to reformat the user's Java code to maximize readability, focusing specifically on **layout, indentation, and spacing**.

**STRICT FORMATTING RULES:**
1.  **Indentation:**
    - Use exactly 4 SPACES for each level of indentation. Do NOT use tabs.
    - Ensure nested blocks (if, for, while) are strictly indented relative to their parent.
2.  **Brace Style (K&R / Egyptian):**
    - Opening braces `{` must be on the same line as the declaration.
    - Closing braces `}` must be on their own line, aligned with the start of the block statement.
3.  **Line Wrapping & Length:**
    - Hard limit: 120 characters per line.
    - **Method Chaining (Streams/Builders):** Put each method call on a new line, starting with the dot `.`. Align the dots vertically.
    - **Long Arguments:** If arguments exceed line length, break them into new lines, aligned with the opening parenthesis `(`.
    - **Operators:** Break lines *before* binary operators (e.g., `+`, `&&`, `||`), not after.
4.  **Whitespace (Breathing Room):**
    - Add a single space around all operators (`=`, `+`, `==`, `->`).
    - Add a single space after keywords like `if`, `for`, `while`, `catch` before the opening parenthesis.
    - Add a single space after commas in lists.
5.  **Vertical Spacing:**
    - Insert exactly one blank line between methods.
    - Insert one blank line inside methods to separate logical blocks (e.g., between variable declarations and logic).

**FILL-IN-THE-BLANK SYSTEM INSTRUCTION:**
You are an intelligent coding assistant helping a user complete a Java "
  ++ dquote
  ++ js "fill-in-the-blanks"
  ++ dquote
  ++ js " exercise.

The user provided code snippet containing placeholders. These placeholders are marked in two ways:
1. Text surrounded by underscores (e.g., `_int___`, `_a_`, `______`).
2. Visual boxes indicating missing values.

**YOUR PRIMARY GOAL:**
When evaluating, generating, or correcting code involving blanks:
When the user provides an input value for a blank, you must replace the **ENTIRE** placeholder with that value.

**STRICT CONSTRAINTS FOR REPLACEMENT:**
1.  **REMOVE ALL UNDERSCORES:** You must delete all leading and trailing underscores belonging to the placeholder.
2.  **CLEAN OUTPUT:** The final result must contain ONLY the user's typed value in that position, with correct normal spacing around it. No remnant underscores should remain.

**EXAMPLES:**
* **Input Code:** `_int___ age = 25;` -> **User Types:** `int` -> **CORRECT Output:** `int age = 25;`
* **Input Code:** `______ temperature = 36.6;` -> **User Types:** `double` -> **CORRECT Output:** `double temperature = 36.6;`
".

Definition questionSchema : Schema :=
  OBJECT
    [ ("title", STRING "A short title for the problem");
      ("instructions", STRING "Clear instructions for the student on what to do");
      ("codeSnippet", STRING "The Java code following the formatting rules. For 'Fill in the Blank', use '____' (4 underscores) as placeholders. For 'Bug Fix', include logic or syntax errors.");
      ("solution", STRING "The fully correct, working Java code following the formatting rules.");
      ("explanation", STRING "A brief explanation of the concept being tested.") ]
    ["title"; "instructions"; "codeSnippet"; "solution"; "explanation"].

Definition simulationSchema : Schema :=
  OBJECT
    [ ("output", STRING "The simulated console output of the code. If there is a compilation error, put the error message here.");
      ("isCorrect", BOOLEAN "Whether the code solves the problem as requested.");
      ("feedback", STRING "Constructive feedback for the student, including notes on code style/formatting if applicable.") ]
    ["output"; "isCorrect"; "feedback"].

Definition examSchema : Schema :=
  OBJECT
    [ ("grade", INTEGER "The final grade on a scale of 2 to 6.");
      ("label", STRING "Label like 'Excellent', 'Good', 'Poor', etc.");
      ("feedback", STRING "Detailed justification for the grade.");
      ("styleScore", INTEGER "0-100 score for indentation and formatting.");
      ("correctnessScore", INTEGER "0-100 score for functionality.") ]
    ["grade"; "label"; "feedback"; "styleScore"; "correctnessScore"].

Definition generateQuestion_prompt (config : QuizConfig) : str :=
  js "
    Create a Java programming task.
    Difficulty: "
  ++ js (Difficulty_value (difficulty config))
  ++ js "
    Topic: "
  ++ js (Topic_value (topic config))
  ++ js "
    Type: "
  ++ js (TaskType_value (taskType config))
  ++ js "
    Language: "
  ++ js (Language_value (language config))
  ++ js " (The instructions and title must be in this language).
    
    CRITICAL CODE GENERATION RULES:
    1. The 'codeSnippet' must be PURE Java code.
    2. STRICTLY FORBIDDEN: Do NOT include ANY comments (// or /* */). No instructions inside the code.
    3. The code must be cleanly formatted according to the System Instructions (4 spaces, K&R braces).
    4. If Type is 'Fill in the Blank', use exactly '____' (4 underscores).
    5. If Type is 'Bug Fix', provide code with subtle errors but NO comments pointing them out.
    
    Ensure the code is self-contained (e.g., inside a Main class main method).
  ".

Definition simulateJavaCode_prompt (userCode : str)
    (originalQuestion : GeneratedQuestion) (language : str) : str :=
  js "
    Act as a Java Compiler and Tutor.
    
    Task Instructions: "
  ++ instructions originalQuestion
  ++ js "
    Expected Solution Pattern: "
  ++ solution originalQuestion
  ++ js "
    
    Student's Code:
    ```java
    "
  ++ userCode
  ++ js "
    ```
    
    1. Simulate the execution of the Student's Code.
    2. Determine if it successfully accomplishes the task.
    3. Provide the output (stdout) or compiler errors.
    4. Provide feedback in "
  ++ language
  ++ js ".
       - Check if the code runs correctly.
       - Also briefly check if the student maintained the Coding Style (indentation, spacing) defined in your System Instructions.
  ".

Definition gradeExam_prompt (userCode : str)
    (originalQuestion : GeneratedQuestion) (metrics : Metrics)
    (language : str) : str :=
  js "
    Act as a Strict Computer Science Teacher grading a student exam.
    
    GRADING SCALE (Bulgarian System):
    6 = Excellent (Perfect correct code, perfect style, efficiency)
    5 = Very Good (Correct code, minor style or efficiency issues)
    4 = Good (Correct logic but messy, or took too many attempts)
    3 = Fair (Partial solution or major errors)
    2 = Poor (Does not run, logic failed completely)

    Student Performance Data:
    - Task: "
  ++ instructions originalQuestion
  ++ js "
    - Correct Solution: "
  ++ solution originalQuestion
  ++ js "
    - Student Code: ```java "
  ++ userCode
  ++ js " ```
    - Time Taken: "
  ++ Number_toString (timeSpentSeconds metrics)
  ++ js " seconds
    - Attempts (Runs): "
  ++ Number_toString (attempts metrics)
  ++ js "
    
    Evaluation Criteria:
    1. **Functionality (Highest Weight)**: Does it solve the problem?
    2. **Formatting & Style**: Are indents correct (4 spaces)? Are brackets correct? Is it readable?
    3. **Efficiency**: Did they take too long (>120s for simple tasks is slow)? Did they spam the "
  ++ dquote
  ++ js "Run"
  ++ dquote
  ++ js " button (>5 attempts is bad)?

    Respond in "
  ++ language
  ++ js ".
    Calculate 'grade' (integer 2-6).
    Calculate 'styleScore' (0-100).
    Calculate 'correctnessScore' (0-100).
  ".

Definition request (prompt : str) (schema : Schema) (temperature : Q) : Request.t :=
  {| Request.model := "gemini-2.5-flash";
     Request.contents := prompt;
     Request.config_ :=
       {| Request.systemInstruction := SENIOR_JAVA_DEV_PROMPT;
          Request.responseMimeType := "application/json";
          Request.responseSchema := schema;
          Request.temperature := temperature |} |}.

Section Service.

(** [process.env.API_KEY]; [None] when the variable is unset. *)
Variable API_KEY : option str.

(** [JSON.parse]; [None] when it throws a SyntaxError. *)
Variable JSON_parse : str -> option value.

Definition getClient : exn + GoogleGenAI :=
  match API_KEY with
  | Some (c :: k) => inr {| apiKey := c :: k |}
  | _ => inl (Error (js "API Key not found in environment"))
  end.

(** [const text = response.text; if (!text) throw ...; JSON.parse(text)] *)
Definition parse_response (response : settled) : exn + value :=
  match response with
  | Rejected e => inl e
  | Fulfilled (Some (c :: r)) =>
      match JSON_parse (c :: r) with
      | Some data => inr data
      | None => inl SyntaxError
      end
  | Fulfilled _ => inl (Error (js "No response from Gemini"))
  end.

(** [cleanCode(data.codeSnippet)] and the object literal that is returned.
    Reading a property of [null] is a TypeError; so is the call of
    [code.replace] when [data.codeSnippet] is not a string: [undefined] for
    a missing property, and no number, boolean, array or object of a JSON
    text has a [replace] method. *)
Definition clean_question (data : value) : exn + value :=
  match data with
  | JObject m =>
      match m !! js "codeSnippet" with
      | Some (JString code) =>
          let cleanedSnippet := cleanCode code in
          inr (JObject (<[js "initialCode" := JString cleanedSnippet]>
                         (<[js "codeSnippet" := JString cleanedSnippet]> m)))
      | _ => inl TypeError
      end
  | _ => inl TypeError
  end.

Definition finish {A : Type} (r : exn + A) : io A :=
  match r with
  | inl e => Throw e
  | inr a => Return a
  end.

Definition generateQuestion (config : QuizConfig) : io value :=
  match getClient with
  | inl e => Throw e
  | inr ai =>
      let prompt := generateQuestion_prompt config in
      GenerateContent ai (request prompt questionSchema (7 # 10))
        (fun response =>
           match parse_response response with
           | inl e => Throw e
           | inr data => finish (clean_question data)
           end)
  end.

Definition simulateJavaCode (userCode : str)
    (originalQuestion : GeneratedQuestion) (language : str) : io value :=
  match getClient with
  | inl e => Throw e
  | inr ai =>
      let prompt := simulateJavaCode_prompt userCode originalQuestion language in
      GenerateContent ai (request prompt simulationSchema (2 # 10))
        (fun response => finish (parse_response response))
  end.

Definition gradeExam (userCode : str) (originalQuestion : GeneratedQuestion)
    (metrics : Metrics) (language : str) : io value :=
  match getClient with
  | inl e => Throw e
  | inr ai =>
      let prompt := gradeExam_prompt userCode originalQuestion metrics language in
      GenerateContent ai (request prompt examSchema (4 # 10))
        (fun response => finish (parse_response response))
  end.

End Service.

(** The three operations the module exports. *)
Inductive operation :=
  | GenerateQuestion (config : QuizConfig)
  | SimulateJavaCode (userCode : str) (originalQuestion : GeneratedQuestion)
      (language : str)
  | GradeExam (userCode : str) (originalQuestion : GeneratedQuestion)
      (metrics : Metrics) (language : str).

Definition perform (API_KEY : option str) (JSON_parse : str -> option value)
    (op : operation) : io value :=
  match op with
  | GenerateQuestion config => generateQuestion API_KEY JSON_parse config
  | SimulateJavaCode userCode q language =>
      simulateJavaCode API_KEY JSON_parse userCode q language
  | GradeExam userCode q metrics language =>
      gradeExam API_KEY JSON_parse userCode q metrics language
  end.

Definition prompt_of (op : operation) : str :=
  match op with
  | GenerateQuestion config => generateQuestion_prompt config
  | SimulateJavaCode userCode q language =>
      simulateJavaCode_prompt userCode q language
  | GradeExam userCode q metrics language =>
      gradeExam_prompt userCode q metrics language
  end.

Definition schema_of (op : operation) : Schema :=
  match op with
  | GenerateQuestion _ => questionSchema
  | SimulateJavaCode _ _ _ => simulationSchema
  | GradeExam _ _ _ _ => examSchema
  end.

Definition is_generate (op : operation) : bool :=
  match op with
  | GenerateQuestion _ => true
  | _ => false
  end.

Definition temperature_of (op : operation) : Q :=
  match op with
  | GenerateQuestion _ => 7 # 10
  | SimulateJavaCode _ _ _ => 2 # 10
  | GradeExam _ _ _ _ => 4 # 10
  end.

(** The request an operation sends, and what the provider answers to it. *)
Definition request_of (op : operation) : Request.t :=
  request (prompt_of op) (schema_of op) (temperature_of op).

Definition response_of (provider : GoogleGenAI -> Request.t -> settled)
    (key : str) (op : operation) : settled :=
  provider {| apiKey := key |} (request_of op).

End GeminiService.

(** ** components/Editor *)

(** The part of the Monaco editor that [updateDecorations] uses. *)
Module Monaco.

Record Position := { lineNumber : nat; column : nat }.

Record Range := {
  startLineNumber : nat;
  startColumn : nat;
  endLineNumber : nat;
  endColumn : nat
}.

Record DecorationOptions := {
  isWholeLine : bool;
  inlineClassName : string;
  afterContentClassName : string;
  hoverMessage : string
}.

Record Decoration := { range : Range; options : DecorationOptions }.

(** A text model answers [getPositionAt] for an offset. *)
Record TextModel := { getValue : str; getPositionAt : nat -> Position }.

(** An editor: its model ([None] is [null]), the decorations it shows, each
    under its id, and the next id it hands out. *)
Record Editor := {
  getModel : option TextModel;
  decorations : list (nat * Decoration);
  nextId : nat
}.

(** [editor.deltaDecorations(oldDecorations, newDecorations)] removes the
    decorations with the old ids, adds the new ones under fresh ids and
    returns these ids. *)
Definition deltaDecorations (editor : Editor) (oldDecorations : list nat)
    (newDecorations : list Decoration) : Editor * list nat :=
  let ids := seq (nextId editor) (length newDecorations) in
  ({| getModel := getModel editor;
      decorations :=
        filter (fun d => d.1 ∉ oldDecorations) (decorations editor)
        ++ zip ids newDecorations;
      nextId := nextId editor + length newDecorations |},
   ids).

End Monaco.

Module EditorComponent.

Import Monaco.

(** [editorRef] and [decorationsRef]. *)
Record refs := { editor : Editor; decorationsRef : list nat }.

(** The pattern [/____/g] matches here. *)
Definition at_blank (code : str) : bool :=
  match code with
  | a :: b :: c :: d :: _ =>
      is_underscore a && is_underscore b && is_underscore c && is_underscore d
  | _ => false
  end.

(** The [while ((match = regex.exec(code)) !== null)] loop: the indices of
    the matches, found from left to right, each search resuming where the
    last match ended ([skip] characters of it are still ahead). *)
Fixpoint exec_blanks (index skip : nat) (code : str) : list nat :=
  match code with
  | [] => []
  | _ :: rest =>
      match skip with
      | S k => exec_blanks (S index) k rest
      | 0 =>
          if at_blank code then index :: exec_blanks (S index) 3 rest
          else exec_blanks (S index) 0 rest
      end
  end.

Definition blank_options : DecorationOptions :=
  {| isWholeLine := false;
     inlineClassName := "blank-highlight";
     afterContentClassName := "blank-badge";
     hoverMessage := "**Action Required**: Replace `____` with the correct code." |}.

Definition blank_decoration (startPos endPos : Position) : Decoration :=
  {| range :=
       {| startLineNumber := lineNumber startPos;
          startColumn := column startPos;
          endLineNumber := lineNumber endPos;
          endColumn := column endPos |};
     options := blank_options |}.

(** The decoration pushed for the match at [index]; without a model
    [startPos] and [endPos] are [undefined] and nothing is pushed. *)
Definition push_match (editor : Editor) (index : nat) : list Decoration :=
  match getModel editor with
  | Some model =>
      [blank_decoration (getPositionAt model index) (getPositionAt model (index + 4))]
  | None => []
  end.

Definition updateDecorations (r : refs) (code : str) : refs :=
  match code with
  | [] => r
  | _ :: _ =>
      let matches := flat_map (push_match (editor r)) (exec_blanks 0 0 code) in
      let (ed, ids) := deltaDecorations (editor r) (decorationsRef r) matches in
      {| editor := ed; decorationsRef := ids |}
  end.

(** The placeholder, and where it occurs in a string. *)
Definition blank : str := js "____".

Definition occurs_at (code : str) (i : nat) : Prop :=
  take 4 (drop i code) = blank.

End EditorComponent.

(** ** App *)

Module App.

(** An object with its identity: [Object.is] compares the addresses. *)
Record ref (A : Type) := { addr : nat; deref : A }.

Arguments addr {A} r.
Arguments deref {A} r.

(** [Object.is] on two values of the state: a primitive is compared by
    value, an array or an object by its identity. *)
Definition Object_is (a b : ref value) : bool :=
  match deref a, deref b with
  | JNull, JNull => true
  | JBool x, JBool y => Bool.eqb x y
  | JNumber x, JNumber y => number_is x y
  | JString x, JString y => bool_decide (x = y)
  | (JArray _ | JObject _), (JArray _ | JObject _) => addr a =? addr b
  | _, _ => false
  end.

(** [null]; the address of a primitive plays no role. *)
Definition null : ref value := {| addr := 0; deref := JNull |}.

(** What the [catch] block of a handler receives.  It reads [e.message]
    only: of [undefined] or [null] the property cannot be read; of any other
    value it is [undefined] ([None]) or the value found there. *)
Inductive thrown :=
  | Nullish
  | Thrown (message : option value).

(** How an awaited service call ends for a handler: with a value or with
    what was thrown.  [generateQuestion] resolves with the object literal it
    builds, of which the handlers and the prompts read the properties of
    [GeneratedQuestion]; [simulateJavaCode] and [gradeExam] resolve with
    whatever [JSON.parse] has returned. *)
Inductive settled (A : Type) : Type :=
  | Resolved (a : A)
  | Failed (e : thrown).

Arguments Resolved {A} a.
Arguments Failed {A} e.

(** [simulationResult], [examResult] and [error] hold the value that was
    stored, whatever it is; [JNull] is [null]. *)
Record state := {
  (* React state *)
  config : QuizConfig;
  question : option (ref GeneratedQuestion);
  userCode : str;
  activeTab : string;
  simulationResult : value;
  examResult : ref value;
  startTime : nat;
  attempts : nat;
  elapsedTime : nat;
  isGenerating : bool;
  isSimulating : bool;
  isGrading : bool;
  error : value;
  (* useRef *)
  timerRef : option nat;
  (* the page: running [setInterval] timers (handle, delay in ms), the next
     handle, the next object identity, the service calls made (newest first) *)
  intervals : list (nat * nat);
  nextHandle : nat;
  nextAddr : nat;
  calls : list GeminiService.operation
}.

Definition set_config (v : QuizConfig) (s : state) : state :=
  {| config := v; question := question s; userCode := userCode s;
     activeTab := activeTab s; simulationResult := simulationResult s;
     examResult := examResult s; startTime := startTime s;
     attempts := attempts s; elapsedTime := elapsedTime s;
     isGenerating := isGenerating s; isSimulating := isSimulating s;
     isGrading := isGrading s; error := error s; timerRef := timerRef s;
     intervals := intervals s; nextHandle := nextHandle s;
     nextAddr := nextAddr s; calls := calls s |}.

Definition set_question (v : option (ref GeneratedQuestion)) (s : state) : state :=
  {| config := config s; question := v; userCode := userCode s;
     activeTab := activeTab s; simulationResult := simulationResult s;
     examResult := examResult s; startTime := startTime s;
     attempts := attempts s; elapsedTime := elapsedTime s;
     isGenerating := isGenerating s; isSimulating := isSimulating s;
     isGrading := isGrading s; error := error s; timerRef := timerRef s;
     intervals := intervals s; nextHandle := nextHandle s;
     nextAddr := nextAddr s; calls := calls s |}.

Definition set_userCode (v : str) (s : state) : state :=
  {| config := config s; question := question s; userCode := v;
     activeTab := activeTab s; simulationResult := simulationResult s;
     examResult := examResult s; startTime := startTime s;
     attempts := attempts s; elapsedTime := elapsedTime s;
     isGenerating := isGenerating s; isSimulating := isSimulating s;
     isGrading := isGrading s; error := error s; timerRef := timerRef s;
     intervals := intervals s; nextHandle := nextHandle s;
     nextAddr := nextAddr s; calls := calls s |}.

Definition set_activeTab (v : string) (s : state) : state :=
  {| config := config s; question := question s; userCode := userCode s;
     activeTab := v; simulationResult := simulationResult s;
     examResult := examResult s; startTime := startTime s;
     attempts := attempts s; elapsedTime := elapsedTime s;
     isGenerating := isGenerating s; isSimulating := isSimulating s;
     isGrading := isGrading s; error := error s; timerRef := timerRef s;
     intervals := intervals s; nextHandle := nextHandle s;
     nextAddr := nextAddr s; calls := calls s |}.

Definition set_simulationResult (v : value) (s : state) : state :=
  {| config := config s; question := question s; userCode := userCode s;
     activeTab := activeTab s; simulationResult := v;
     examResult := examResult s; startTime := startTime s;
     attempts := attempts s; elapsedTime := elapsedTime s;
     isGenerating := isGenerating s; isSimulating := isSimulating s;
     isGrading := isGrading s; error := error s; timerRef := timerRef s;
     intervals := intervals s; nextHandle := nextHandle s;
     nextAddr := nextAddr s; calls := calls s |}.

Definition set_examResult (v : ref value) (s : state) : state :=
  {| config := config s; question := question s; userCode := userCode s;
     activeTab := activeTab s; simulationResult := simulationResult s;
     examResult := v; startTime := startTime s; attempts := attempts s;
     elapsedTime := elapsedTime s; isGenerating := isGenerating s;
     isSimulating := isSimulating s; isGrading := isGrading s;
     error := error s; timerRef := timerRef s; intervals := intervals s;
     nextHandle := nextHandle s; nextAddr := nextAddr s; calls := calls s |}.

Definition set_startTime (v : nat) (s : state) : state :=
  {| config := config s; question := question s; userCode := userCode s;
     activeTab := activeTab s; simulationResult := simulationResult s;
     examResult := examResult s; startTime := v; attempts := attempts s;
     elapsedTime := elapsedTime s; isGenerating := isGenerating s;
     isSimulating := isSimulating s; isGrading := isGrading s;
     error := error s; timerRef := timerRef s; intervals := intervals s;
     nextHandle := nextHandle s; nextAddr := nextAddr s; calls := calls s |}.

Definition set_attempts (v : nat) (s : state) : state :=
  {| config := config s; question := question s; userCode := userCode s;
     activeTab := activeTab s; simulationResult := simulationResult s;
     examResult := examResult s; startTime := startTime s; attempts := v;
     elapsedTime := elapsedTime s; isGenerating := isGenerating s;
     isSimulating := isSimulating s; isGrading := isGrading s;
     error := error s; timerRef := timerRef s; intervals := intervals s;
     nextHandle := nextHandle s; nextAddr := nextAddr s; calls := calls s |}.

Definition set_elapsedTime (v : nat) (s : state) : state :=
  {| config := config s; question := question s; userCode := userCode s;
     activeTab := activeTab s; simulationResult := simulationResult s;
     examResult := examResult s; startTime := startTime s;
     attempts := attempts s; elapsedTime := v;
     isGenerating := isGenerating s; isSimulating := isSimulating s;
     isGrading := isGrading s; error := error s; timerRef := timerRef s;
     intervals := intervals s; nextHandle := nextHandle s;
     nextAddr := nextAddr s; calls := calls s |}.

Definition set_isGenerating (v : bool) (s : state) : state :=
  {| config := config s; question := question s; userCode := userCode s;
     activeTab := activeTab s; simulationResult := simulationResult s;
     examResult := examResult s; startTime := startTime s;
     attempts := attempts s; elapsedTime := elapsedTime s;
     isGenerating := v; isSimulating := isSimulating s;
     isGrading := isGrading s; error := error s; timerRef := timerRef s;
     intervals := intervals s; nextHandle := nextHandle s;
     nextAddr := nextAddr s; calls := calls s |}.

Definition set_isSimulating (v : bool) (s : state) : state :=
  {| config := config s; question := question s; userCode := userCode s;
     activeTab := activeTab s; simulationResult := simulationResult s;
     examResult := examResult s; startTime := startTime s;
     attempts := attempts s; elapsedTime := elapsedTime s;
     isGenerating := isGenerating s; isSimulating := v;
     isGrading := isGrading s; error := error s; timerRef := timerRef s;
     intervals := intervals s; nextHandle := nextHandle s;
     nextAddr := nextAddr s; calls := calls s |}.

Definition set_isGrading (v : bool) (s : state) : state :=
  {| config := config s; question := question s; userCode := userCode s;
     activeTab := activeTab s; simulationResult := simulationResult s;
     examResult := examResult s; startTime := startTime s;
     attempts := attempts s; elapsedTime := elapsedTime s;
     isGenerating := isGenerating s; isSimulating := isSimulating s;
     isGrading := v; error := error s; timerRef := timerRef s;
     intervals := intervals s; nextHandle := nextHandle s;
     nextAddr := nextAddr s; calls := calls s |}.

Definition set_error (v : value) (s : state) : state :=
  {| config := config s; question := question s; userCode := userCode s;
     activeTab := activeTab s; simulationResult := simulationResult s;
     examResult := examResult s; startTime := startTime s;
     attempts := attempts s; elapsedTime := elapsedTime s;
     isGenerating := isGenerating s; isSimulating := isSimulating s;
     isGrading := isGrading s; error := v; timerRef := timerRef s;
     intervals := intervals s; nextHandle := nextHandle s;
     nextAddr := nextAddr s; calls := calls s |}.

Definition set_timerRef (v : option nat) (s : state) : state :=
  {| config := config s; question := question s; userCode := userCode s;
     activeTab := activeTab s; simulationResult := simulationResult s;
     examResult := examResult s; startTime := startTime s;
     attempts := attempts s; elapsedTime := elapsedTime s;
     isGenerating := isGenerating s; isSimulating := isSimulating s;
     isGrading := isGrading s; error := error s; timerRef := v;
     intervals := intervals s; nextHandle := nextHandle s;
     nextAddr := nextAddr s; calls := calls s |}.

Definition set_intervals (v : list (nat * nat)) (s : state) : state :=
  {| config := config s; question := question s; userCode := userCode s;
     activeTab := activeTab s; simulationResult := simulationResult s;
     examResult := examResult s; startTime := startTime s;
     attempts := attempts s; elapsedTime := elapsedTime s;
     isGenerating := isGenerating s; isSimulating := isSimulating s;
     isGrading := isGrading s; error := error s; timerRef := timerRef s;
     intervals := v; nextHandle := nextHandle s; nextAddr := nextAddr s;
     calls := calls s |}.

Definition set_nextHandle (v : nat) (s : state) : state :=
  {| config := config s; question := question s; userCode := userCode s;
     activeTab := activeTab s; simulationResult := simulationResult s;
     examResult := examResult s; startTime := startTime s;
     attempts := attempts s; elapsedTime := elapsedTime s;
     isGenerating := isGenerating s; isSimulating := isSimulating s;
     isGrading := isGrading s; error := error s; timerRef := timerRef s;
     intervals := intervals s; nextHandle := v; nextAddr := nextAddr s;
     calls := calls s |}.

Definition set_nextAddr (v : nat) (s : state) : state :=
  {| config := config s; question := question s; userCode := userCode s;
     activeTab := activeTab s; simulationResult := simulationResult s;
     examResult := examResult s; startTime := startTime s;
     attempts := attempts s; elapsedTime := elapsedTime s;
     isGenerating := isGenerating s; isSimulating := isSimulating s;
     isGrading := isGrading s; error := error s; timerRef := timerRef s;
     intervals := intervals s; nextHandle := nextHandle s; nextAddr := v;
     calls := calls s |}.

Definition set_calls (v : list GeminiService.operation) (s : state) : state :=
  {| config := config s; question := question s; userCode := userCode s;
     activeTab := activeTab s; simulationResult := simulationResult s;
     examResult := examResult s; startTime := startTime s;
     attempts := attempts s; elapsedTime := elapsedTime s;
     isGenerating := isGenerating s; isSimulating := isSimulating s;
     isGrading := isGrading s; error := error s; timerRef := timerRef s;
     intervals := intervals s; nextHandle := nextHandle s;
     nextAddr := nextAddr s; calls := v |}.

(** [message || fallback], for the [message] read from what was thrown. *)
Definition message_or (message : option value) (fallback : string) : value :=
  match message with
  | Some v => if ToBoolean v then v else JString (js fallback)
  | None => JString (js fallback)
  end.

(** [catch (e) { setError(e.message || fallback) }]: for [undefined] and
    [null] reading the property throws a TypeError out of the block, and
    [setError] is not called. *)
Definition catch_setError (e : thrown) (fallback : string) (s : state) : state :=
  match e with
  | Nullish => s
  | Thrown message => set_error (message_or message fallback) s
  end.

Definition is_some {A : Type} (o : option A) : bool :=
  match o with
  | Some _ => true
  | None => false
  end.

(** *** The timer *)

(** [window.setInterval(callback, delay)]: handles are positive. *)
Definition setInterval (delay : nat) (s : state) : nat * state :=
  let h := nextHandle s in
  (h, set_nextHandle (S h) (set_intervals ((h, delay) :: intervals s) s)).

Definition clearInterval (h : nat) (s : state) : state :=
  set_intervals (filter (fun t => t.1 ≠ h) (intervals s)) s.

(** [if (timerRef.current) clearInterval(timerRef.current)] *)
Definition clear_timer (s : state) : state :=
  match timerRef s with
  | Some (S h) => clearInterval (S h) s
  | _ => s
  end.

(** The body of the timer effect. *)
Definition timer_effect (now : nat) (s : state) : state :=
  if is_some (question s) && negb (ToBoolean (deref (examResult s))) then
    let s := set_attempts 0 (set_elapsedTime 0 (set_startTime now s)) in
    let (h, s) := setInterval 1000 s in
    set_timerRef (Some h) s
  else clear_timer s.

Definition same_ref {A : Type} (a b : option (ref A)) : bool :=
  match a, b with
  | None, None => true
  | Some x, Some y => addr x =? addr y
  | _, _ => false
  end.

(** After a render the effect with dependencies [[question, examResult]]
    runs again when one of them is another object than before: first the
    clean-up of the last run, then the body. *)
Definition commit (now : nat) (before after : state) : state :=
  if same_ref (question before) (question after)
     && Object_is (examResult before) (examResult after)
  then after
  else timer_effect now (clear_timer after).

(** *** Handlers

    A handler with an [await] is split at it: the part that runs on the
    click, and the part that runs when the call has settled. *)

Definition handleStartQuiz (s : state) : state :=
  set_calls (GeminiService.GenerateQuestion (config s) :: calls s)
    (set_examResult null (set_simulationResult JNull (set_error JNull
      (set_isGenerating true s)))).

Definition handleStartQuiz_settled (r : settled GeneratedQuestion) (s : state)
    : state :=
  set_isGenerating false
    match r with
    | Resolved q =>
        set_activeTab "Main.java" (set_userCode (codeSnippet q)
          (set_question (Some {| addr := nextAddr s; deref := q |})
            (set_nextAddr (S (nextAddr s)) s)))
    | Failed e =>
        catch_setError e "Failed to generate question. Please check API Key." s
    end.

Definition handleRunCode (s : state) : state :=
  match question s with
  | None => s
  | Some q =>
      set_calls
        (GeminiService.SimulateJavaCode (userCode s) (deref q)
           (js (Language_value (language (config s)))) :: calls s)
        (set_attempts (attempts s + 1) (set_simulationResult JNull
          (set_isSimulating true s)))
  end.

Definition handleRunCode_settled (r : settled value) (s : state) : state :=
  set_isSimulating false
    match r with
    | Resolved result => set_simulationResult result s
    | Failed e => catch_setError e "Failed to simulate code." s
    end.

Definition handleFinishExam (s : state) : state :=
  match question s with
  | None => s
  | Some q =>
      set_calls
        (GeminiService.GradeExam (userCode s) (deref q)
           {| GeminiService.timeSpentSeconds := elapsedTime s;
              GeminiService.attempts := attempts s |}
           (js (Language_value (language (config s)))) :: calls s)
        (set_isGrading true s)
  end.

(** [result] is what [JSON.parse] has made: when it is an object or an
    array it is a new one. *)
Definition handleFinishExam_settled (r : settled value) (s : state) : state :=
  set_isGrading false
    match r with
    | Resolved result =>
        clear_timer
          (set_examResult {| addr := nextAddr s; deref := result |}
            (set_nextAddr (S (nextAddr s)) s))
    | Failed e => catch_setError e "Failed to grade exam." s
    end.

Definition handleReset (s : state) : state :=
  match question s with
  | Some q =>
      set_attempts (attempts s + 1) (set_simulationResult JNull
        (set_userCode (initialCode (deref q)) s))
  | None => s
  end.

Definition handleBackToSetup (s : state) : state :=
  set_error JNull (set_examResult null (set_simulationResult JNull
    (set_userCode [] (set_question None s)))).

(** *** What is rendered *)

Inductive screen := LoadingScreen | SetupScreen | QuizScreen.

Definition view (s : state) : screen :=
  if isGenerating s then LoadingScreen
  else match question s with
       | None => SetupScreen
       | Some _ => QuizScreen
       end.

(** [!!examResult] *)
Definition has_result (s : state) : bool := ToBoolean (deref (examResult s)).

(** The [readOnly] and [disabled] properties in [renderQuiz]. *)
Definition editor_readOnly (s : state) : bool := has_result s.
Definition reset_disabled (s : state) : bool := has_result s.
Definition run_disabled (s : state) : bool := isSimulating s || has_result s.
Definition finish_disabled (s : state) : bool := isGrading s || has_result s.

(** *** Events *)

Inductive event :=
  | SetConfig (c : QuizConfig)
  | ClickStart
  | StartSettled (r : settled GeneratedQuestion)
  | ClickRun
  | RunSettled (r : settled value)
  | ClickFinish
  | FinishSettled (r : settled value)
  | ClickReset
  | ClickBackToSetup
  | ClickReview
  | EditCode (newCode : str)
  | DismissError
  | Tick (handle : nat).

Definition is_screen (a b : screen) : bool :=
  match a, b with
  | LoadingScreen, LoadingScreen | SetupScreen, SetupScreen
  | QuizScreen, QuizScreen => true
  | _, _ => false
  end.

(** An event can happen when its control is on the screen and enabled, when
    the call it settles is pending, or when its timer runs. *)
Definition enabled (e : event) (s : state) : bool :=
  match e with
  | SetConfig _ => is_screen (view s) SetupScreen
  | ClickStart => is_screen (view s) SetupScreen
  | StartSettled _ => isGenerating s
  | ClickRun => is_screen (view s) QuizScreen && negb (run_disabled s)
  | RunSettled _ => isSimulating s
  | ClickFinish => is_screen (view s) QuizScreen && negb (finish_disabled s)
  | FinishSettled _ => isGrading s
  | ClickReset => is_screen (view s) QuizScreen && negb (reset_disabled s)
  | ClickBackToSetup => is_screen (view s) QuizScreen
  | ClickReview => is_screen (view s) QuizScreen && has_result s
  | EditCode _ => is_screen (view s) QuizScreen && negb (editor_readOnly s)
  | DismissError => ToBoolean (error s)
  | Tick h => bool_decide (h ∈ (intervals s).*1)
  end.

Definition handle (e : event) (s : state) : state :=
  match e with
  | SetConfig c => set_config c s
  | ClickStart => handleStartQuiz s
  | StartSettled r => handleStartQuiz_settled r s
  | ClickRun => handleRunCode s
  | RunSettled r => handleRunCode_settled r s
  | ClickFinish => handleFinishExam s
  | FinishSettled r => handleFinishExam_settled r s
  | ClickReset => handleReset s
  | ClickBackToSetup => handleBackToSetup s
  | ClickReview => set_examResult null s
  | EditCode newCode => set_userCode newCode s
  | DismissError => set_error JNull s
  | Tick _ => set_elapsedTime (elapsedTime s + 1) s
  end.

(** One event: the handler, then the render and its effect.  [now] is what
    [Date.now()] answers meanwhile. *)
Definition dispatch (now : nat) (e : event) (s : state) : option state :=
  if enabled e s then Some (commit now s (handle e s)) else None.

Definition initial : state :=
  {| config :=
       {| difficulty := BEGINNER; topic := VARIABLES;
          taskType := FILL_IN_BLANK; language := English |};
     question := None; userCode := []; activeTab := "Main.java";
     simulationResult := JNull; examResult := null;
     startTime := 0; attempts := 0; elapsedTime := 0;
     isGenerating := false; isSimulating := false; isGrading := false;
     error := JNull; timerRef := None;
     intervals := []; nextHandle := 1; nextAddr := 0; calls := [] |}.

Inductive reachable : state -> Prop :=
  | reachable_initial : reachable initial
  | reachable_dispatch now e s s' :
      reachable s -> dispatch now e s = Some s' -> reachable s'.

Fixpoint run (events : list (nat * event)) (s : state) : option state :=
  match events with
  | [] => Some s
  | (now, e) :: rest =>
      match dispatch now e s with
      | Some s' => run rest s'
      | None => None
      end
  end.

(** A question is being worked on: the condition of the timer effect. *)
Definition active (s : state) : bool :=
  is_some (question s) && negb (has_result s).

(** *** Invariants of the reachable states *)

(** Two states that differ at most in the timer and the counters the timer
    effect resets. *)
Definition same_quiz (s1 s2 : state) : Prop :=
  config s1 = config s2 /\ question s1 = question s2
  /\ userCode s1 = userCode s2 /\ activeTab s1 = activeTab s2
  /\ simulationResult s1 = simulationResult s2
  /\ examResult s1 = examResult s2
  /\ isGenerating s1 = isGenerating s2 /\ isSimulating s1 = isSimulating s2
  /\ isGrading s1 = isGrading s2 /\ error s1 = error s2
  /\ nextAddr s1 = nextAddr s2 /\ calls s1 = calls s2.

(** At most the timer of [timerRef] runs. *)
Definition timers_weak (s : state) : Prop :=
  intervals s = []
  \/ exists h, h <> 0 /\ timerRef s = Some h /\ intervals s = [(h, 1000)].

(** No timer runs unless a question is being worked on, and then at most
    the one [timerRef] holds. *)
Definition timers_ok (s : state) : Prop :=
  timers_weak s /\ (active s = false -> intervals s = []).

Definition inv (s : state) : Prop :=
  1 <= nextHandle s
  /\ (isGenerating s = true -> question s = None)
  /\ timers_ok s.

End App.

(** *** What is left of the input after a match

    The suffix functions below describe the input that remains after each
    pattern has matched; the lemmas of the second part relate them to the
    match lengths above. *)

Fixpoint line_rest (s : str) : str :=
  match s with
  | c :: t => if is_lt c then s else line_rest t
  | [] => []
  end.

Fixpoint after_close (s : str) : option str :=
  match s with
  | a :: t => if is_star a && starts is_slash t then Some (tl t) else after_close t
  | [] => None
  end.

Fixpoint after_blank (s : str) : option str :=
  match s with
  | c :: t =>
      if is_ws c then
        match after_blank t with
        | Some r => Some r
        | None => if is_crlf c then Some t else None
        end
      else None
  | [] => None
  end.

Fixpoint prev_after (k : nat) (prev : option N) (s : str) : option N :=
  match k, s with
  | S j, c :: t => prev_after j (Some c) t
  | _, _ => prev
  end.

(** [squeeze_blank_lines] resumed in the middle of the input: [bol] tells
    whether the position is the start of a line. *)
Definition squeeze_at (bol : bool) (s : str) : str :=
  replace_from re_blank_line [10%N] 0 (if bol then None else Some 0%N) s.

(** No two adjacent slashes. *)
Fixpoint no_dslash (s : str) : bool :=
  match s with
  | a :: t => negb (is_slash a && starts is_slash t) && no_dslash t
  | [] => true
  end.

Definition has_close (s : str) : bool :=
  match after_close s with
  | Some _ => true
  | None => false
  end.

(** No slash-star that is closed later by a star-slash. *)
Fixpoint no_block (s : str) : bool :=
  match s with
  | a :: t =>
      negb (is_slash a && starts is_star t && has_close (tl t)) && no_block t
  | [] => true
  end.

(** No run of three line feeds. *)
Fixpoint no_nl3 (s : str) : bool :=
  match s with
  | c :: t => negb (is_nl c && (2 <=? nl_run t)) && no_nl3 t
  | [] => true
  end.

(** ** Sample data

    A provider, two JSON texts with the values they denote, and a parser
    that knows one text: it answers as [JSON.parse] does on that text and
    rejects every other one. *)

Module Sample.

Import GeminiService.

Definition quoted (s : string) : str := dquote ++ js s ++ dquote.

Definition member (key value : str) : str := key ++ js ":" ++ value.

(** The text of an object with one member per line of the list. *)
Definition question_text : str :=
  js "{" ++ member (quoted "title") (quoted "Sum")
  ++ js "," ++ member (quoted "instructions") (quoted "Fill the blank")
  ++ js "," ++ member (quoted "codeSnippet") (quoted "int x = ____; // set x")
  ++ js "," ++ member (quoted "solution") (quoted "int x = 1;")
  ++ js "," ++ member (quoted "explanation") (quoted "An int literal")
  ++ js "}".

Definition question_data : gmap str value :=
  list_to_map
    [ (js "title", JString (js "Sum"));
      (js "instructions", JString (js "Fill the blank"));
      (js "codeSnippet", JString (js "int x = ____; // set x"));
      (js "solution", JString (js "int x = 1;"));
      (js "explanation", JString (js "An int literal")) ].

Definition exam_text : str :=
  js "{" ++ member (quoted "grade") (js "7")
  ++ js "," ++ member (quoted "label") (quoted "Superb")
  ++ js "," ++ member (quoted "feedback") (quoted "ok")
  ++ js "," ++ member (quoted "styleScore") (js "150")
  ++ js "," ++ member (quoted "correctnessScore") (js "-5")
  ++ js "}".

Definition exam_data : gmap str value :=
  list_to_map
    [ (js "grade", JNumber (int 7));
      (js "label", JString (js "Superb"));
      (js "feedback", JString (js "ok"));
      (js "styleScore", JNumber (int 150));
      (js "correctnessScore", JNumber (int (-5))) ].

Definition parse_only (text : str) (v : value) : str -> option value :=
  fun t => if decide (t = text) then Some v else None.

Definition answer (text : option str) : GoogleGenAI -> Request.t -> settled :=
  fun _ _ => Fulfilled text.

Definition key : str := js "k".

Definition parse_question : str -> option value :=
  parse_only question_text (JObject question_data).

Definition parse_exam : str -> option value :=
  parse_only exam_text (JObject exam_data).

(** The text of the empty object. *)
Definition parse_empty_object : str -> option value :=
  parse_only (js "{}") (JObject ∅).


Definition metrics0 : Metrics := {| timeSpentSeconds := 75; attempts := 2 |}.

Definition config0 : QuizConfig :=
  {| difficulty := BEGINNER; topic := VARIABLES; taskType := FILL_IN_BLANK;
     language := English |}.

Definition question0 : GeneratedQuestion :=
  {| title := js "Sum"; instructions := js "Fill the blank";
     codeSnippet := js "int x = ____;"; initialCode := js "int x = ____;";
     solution := js "int x = 1;"; explanation := js "An int literal" |}.

Definition exam0 : ExamResult.t :=
  {| ExamResult.grade := int 5; ExamResult.label := js "Very Good";
     ExamResult.feedback := js "ok"; ExamResult.styleScore := int 90;
     ExamResult.correctnessScore := int 100 |}.

Definition simulation0 : SimulationResult.t :=
  {| SimulationResult.output := js "1"; SimulationResult.isCorrect := true;
     SimulationResult.feedback := js "ok" |}.

(** A session: a question is generated, the code is run, reset, edited and
    graded, and the result is closed for review. *)
Definition session_start : list (nat * App.event) :=
  [ (10, App.ClickStart); (12, App.StartSettled (App.Resolved question0)) ].

Definition session_running : list (nat * App.event) :=
  session_start ++ [ (13, App.Tick 1); (14, App.ClickRun) ].

Definition session_graded : list (nat * App.event) :=
  session_running
  ++ [ (15, App.RunSettled (App.Resolved (SimulationResult_value simulation0)));
       (16, App.ClickReset);
       (17, App.EditCode (js "int x = 1;")); (18, App.ClickFinish);
       (20, App.FinishSettled (App.Resolved (ExamResult_value exam0))) ].

Definition session_review : list (nat * App.event) :=
  session_graded ++ [ (21, App.ClickReview) ].


Definition after (events : list (nat * App.event)) : App.state :=
  match App.run events App.initial with
  | Some s => s
  | None => App.initial
  end.

(** A one-line model, an editor that shows it with one decoration from an
    earlier update, and an editor without a model. *)
Definition model0 : Monaco.TextModel :=
  {| Monaco.getValue := js "int ____ = ____;";
     Monaco.getPositionAt :=
       fun offset => {| Monaco.lineNumber := 1; Monaco.column := S offset |} |}.

Definition refs0 : EditorComponent.refs :=
  {| EditorComponent.editor :=
       {| Monaco.getModel := Some model0;
          Monaco.decorations :=
            [(0, EditorComponent.blank_decoration
                   (Monaco.getPositionAt model0 2) (Monaco.getPositionAt model0 6))];
          Monaco.nextId := 1 |};
     EditorComponent.decorationsRef := [0] |}.

Definition refs_without_model : EditorComponent.refs :=
  {| EditorComponent.editor :=
       {| Monaco.getModel := None; Monaco.decorations := []; Monaco.nextId := 0 |};
     EditorComponent.decorationsRef := [] |}.

End Sample.

(** ** More of the sources *)

(** *** [cleanCode]: what is left of a string without its white space *)

Fixpoint visible (s : str) : str :=
  match s with
  | c :: t => if is_ws c then visible t else c :: visible t
  | [] => []
  end.

(** *** App: [formatTime] *)

Module Render.

(** [s.padStart(targetLength, pad)] for a one-character [pad]. *)
Definition padStart (targetLength : nat) (pad : N) (s : str) : str :=
  replicate (targetLength - length s) pad ++ s.

(** [seconds] is a counter: [Math.floor(seconds / 60)] and [seconds % 60]
    are the quotient and the remainder. *)
Definition formatTime (seconds : nat) : str :=
  let mins := seconds / 60 in
  let secs := seconds mod 60 in
  GeminiService.Number_toString mins ++ js ":"
  ++ padStart 2 48 (GeminiService.Number_toString secs).

Definition is_digit (c : N) : bool := N.leb 48 c && N.leb c 57.

End Render.

(** *** components/Editor: the props and the handlers around
    [updateDecorations] *)

Module EditorProps.

Import Monaco EditorComponent.

Record EditorFile := { name : str; language : str; content : str }.

(** [files.find(f => f.name === activeFileName) || files[0]]; [None] is
    [undefined], for an empty list. *)
Definition activeFile (files : list EditorFile) (activeFileName : str)
    : option EditorFile :=
  match find (fun f => bool_decide (name f = activeFileName)) files with
  | Some f => Some f
  | None => head files
  end.

(** [handleEditorChange]: the arguments of the [onCodeChange] call, or the
    TypeError of reading [activeFile.name] without an active file. *)
Definition handleEditorChange (files : list EditorFile) (activeFileName : str)
    (value : option str) : option (str * str) :=
  match activeFile files activeFileName with
  | Some f =>
      Some (name f, match value with
                    | Some (c :: r) => c :: r
                    | _ => []
                    end)
  | None => None
  end.

(** The listener installed by [handleEditorDidMount]. *)
Definition onDidChangeModelContent (r : refs) : refs :=
  match getModel (editor r) with
  | Some model => updateDecorations r (getValue model)
  | None => r
  end.

(** The decorations of all the matches of a string, for a model. *)
Definition blank_decorations (model : TextModel) (code : str) : list Decoration :=
  map (fun i => blank_decoration (getPositionAt model i) (getPositionAt model (i + 4)))
    (exec_blanks 0 0 code).

(** The last non-empty string of a list. *)
Definition last_nonempty (codes : list str) : option str :=
  last (filter (fun code => code <> []) codes).

End EditorProps.

(** *** App: the props it gives the editor *)

Module AppEditor.

(** [editorFiles] *)
Definition editorFiles (s : App.state) : list EditorProps.EditorFile :=
  [ {| EditorProps.name := js "Main.java";
       EditorProps.language := js "java";
       EditorProps.content := App.userCode s |} ].

(** [onCodeChange={(_, newCode) => setUserCode(newCode)}] *)
Definition onCodeChange (fileName newCode : str) (s : App.state) : App.state :=
  App.set_userCode newCode s.

(** A change reported by the editor, through [handleEditorChange] to the
    state; [None] when [handleEditorChange] throws. *)
Definition editor_changed (value : option str) (s : App.state) : option App.state :=
  match EditorProps.handleEditorChange (editorFiles s) (js (App.activeTab s)) value with
  | Some (fileName, newCode) => Some (onCodeChange fileName newCode s)
  | None => None
  end.

End AppEditor.

(** *** The returned question at its declared type *)

Definition string_field (m : gmap str value) (key : string) : option str :=
  match m !! js key with
  | Some (JString s) => Some s
  | _ => None
  end.

(** An object as a [GeneratedQuestion]: defined when the six properties of
    the interface are strings. *)
Definition as_GeneratedQuestion (v : value) : option GeneratedQuestion :=
  match v with
  | JObject m =>
      match string_field m "title", string_field m "instructions",
            string_field m "codeSnippet", string_field m "initialCode",
            string_field m "solution", string_field m "explanation" with
      | Some t, Some i, Some c, Some c0, Some s, Some e =>
          Some {| title := t; instructions := i; codeSnippet := c;
                  initialCode := c0; solution := s; explanation := e |}
      | _, _, _, _, _, _ => None
      end
  | _ => None
  end.

(** *** All quiz configurations *)

Definition all_configs : list QuizConfig :=
  d ← [BEGINNER; INTERMEDIATE; ADVANCED];
  t ← [VARIABLES; LOOPS; ARRAYS; OOP; METHODS; EXCEPTIONS; STRINGS; FILE_IO;
       COLLECTIONS];
  k ← [FILL_IN_BLANK; BUG_FIX; PREDICT_OUTPUT];
  l ← [English; Bulgarian];
  [ {| difficulty := d; topic := t; taskType := k; language := l |} ].

Fixpoint str_eqb (a b : str) : bool :=
  match a, b with
  | [], [] => true
  | x :: a, y :: b => N.eqb x y && str_eqb a b
  | _, _ => false
  end.

#[global] Instance Difficulty_eq_dec : EqDecision Difficulty.
Proof. solve_decision. Defined.

#[global] Instance Topic_eq_dec : EqDecision Topic.
Proof. solve_decision. Defined.

#[global] Instance TaskType_eq_dec : EqDecision TaskType.
Proof. solve_decision. Defined.

#[global] Instance Language_eq_dec : EqDecision Language.
Proof. solve_decision. Defined.

#[global] Instance QuizConfig_eq_dec : EqDecision QuizConfig.
Proof. solve_decision. Defined.

(** Each configuration with its prompt. *)
Definition config_prompts : list (QuizConfig * str) :=
  map (fun c => (c, GeminiService.generateQuestion_prompt c)) all_configs.

(** No two configurations of the list share a prompt. *)
Definition prompts_distinct (ps : list (QuizConfig * str)) : bool :=
  forallb (fun p1 =>
    forallb (fun p2 => implb (str_eqb p1.2 p2.2) (bool_decide (p1.1 = p2.1))) ps)
    ps.

(** *** App: what a handler leaves alone *)

(** Two states that differ at most in the error and the three flags of the
    pending calls. *)
Definition quiz_kept (s s' : App.state) : Prop :=
  App.config s' = App.config s /\ App.question s' = App.question s
  /\ App.userCode s' = App.userCode s /\ App.activeTab s' = App.activeTab s
  /\ App.simulationResult s' = App.simulationResult s
  /\ App.examResult s' = App.examResult s
  /\ App.startTime s' = App.startTime s /\ App.attempts s' = App.attempts s
  /\ App.elapsedTime s' = App.elapsedTime s
  /\ App.timerRef s' = App.timerRef s /\ App.intervals s' = App.intervals s
  /\ App.nextHandle s' = App.nextHandle s /\ App.nextAddr s' = App.nextAddr s
  /\ App.calls s' = App.calls s.

(** The objects of the state are older than the next one. *)
Definition addrs_fresh (s : App.state) : Prop :=
  (forall q, App.question s = Some q -> App.addr q < App.nextAddr s)
  /\ (App.examResult s = App.null
      \/ App.addr (App.examResult s) < App.nextAddr s).

(** * Properties *)

(** ** Character classes *)

Section CharFacts.

Lemma slash_not_ws c : is_slash c = true -> is_ws c = false.
Proof. unfold is_slash. intros H%N.eqb_eq. by subst. Qed.

Lemma star_not_ws c : is_star c = true -> is_ws c = false.
Proof. unfold is_star. intros H%N.eqb_eq. by subst. Qed.

Lemma slash_not_star c : is_slash c = true -> is_star c = false.
Proof. unfold is_slash. intros H%N.eqb_eq. by subst. Qed.

Lemma star_not_slash c : is_star c = true -> is_slash c = false.
Proof. unfold is_star. intros H%N.eqb_eq. by subst. Qed.

Lemma crlf_lt c : is_crlf c = true -> is_lt c = true.
Proof. unfold is_lt. by intros ->. Qed.

Lemma lt_ws c : is_lt c = true -> is_ws c = true.
Proof. unfold is_ws. by intros ->. Qed.

Lemma nl_crlf c : is_nl c = true -> is_crlf c = true.
Proof. unfold is_nl, is_crlf. intros ->. apply orb_true_r. Qed.

Lemma nl_ws c : is_nl c = true -> is_ws c = true.
Proof. intros. by apply lt_ws, crlf_lt, nl_crlf. Qed.

Lemma not_ws_not_lt c : is_ws c = false -> is_lt c = false.
Proof. destruct (is_lt c) eqn:E; [|done]. by rewrite (lt_ws _ E). Qed.

Lemma slash_not_nl c : is_slash c = true -> is_nl c = false.
Proof.
  intros H%slash_not_ws. destruct (is_nl c) eqn:E; [|done].
  by rewrite (nl_ws _ E) in H.
Qed.

Lemma star_not_nl c : is_star c = true -> is_nl c = false.
Proof.
  intros H%star_not_ws. destruct (is_nl c) eqn:E; [|done].
  by rewrite (nl_ws _ E) in H.
Qed.

End CharFacts.

(** ** The scanner *)

Lemma replace_from_skip m repl k prev s :
  k <= length s ->
  replace_from m repl k prev s
  = replace_from m repl 0 (prev_after k prev s) (drop k s).
Proof.
  revert k prev. induction s as [|c t IH]; intros [|k] prev Hk; simpl in *;
    try lia; try done.
  apply IH. lia.
Qed.

Lemma replace_from_prev m repl p q s :
  (forall u, m p u = m q u) ->
  replace_from m repl 0 p s = replace_from m repl 0 q s.
Proof. intros H. destruct s; simpl; by rewrite H. Qed.

Lemma prev_after_lookup j c t x :
  (c :: t) !! j = Some x -> prev_after j (Some c) t = Some x.
Proof.
  revert j c x. induction t as [|d t IH]; intros [|j] c x; simpl;
    try congruence.
  - by destruct j.
  - intros H. by apply IH.
Qed.

(** ** Match lengths and remaining input *)

Lemma line_rest_len_le r : line_rest_len r <= length r.
Proof. induction r as [|c t IH]; simpl; [lia|]. destruct (is_lt c); simpl; lia. Qed.

Lemma drop_line_rest_len r : drop (line_rest_len r) r = line_rest r.
Proof. induction r as [|c t IH]; simpl; [done|]. by destruct (is_lt c). Qed.

Lemma line_rest_length r : length (line_rest r) <= length r.
Proof. induction r as [|c t IH]; simpl; [lia|]. destruct (is_lt c); simpl; lia. Qed.

Lemma close_len_spec r :
  match close_len r with
  | Some n => n <= length r /\ after_close r = Some (drop n r)
  | None => after_close r = None
  end.
Proof.
  induction r as [|a t IH]; simpl; [done|].
  destruct (is_star a && starts is_slash t) eqn:E.
  - destruct t as [|b u]; simpl in *; [by rewrite andb_false_r in E|].
    split; [lia|done].
  - destruct (close_len t) as [n|]; [|done].
    destruct IH as [Hn ->]. split; [lia|done].
Qed.

Lemma after_close_length r u : after_close r = Some u -> length u < length r.
Proof.
  revert u. induction r as [|a t IH]; simpl; intros u; [done|].
  destruct (is_star a && starts is_slash t) eqn:E.
  - destruct t as [|b t]; simpl in *; [by rewrite andb_false_r in E|].
    intros [= <-]. lia.
  - intros H%IH. lia.
Qed.

Lemma blank_len_spec s :
  match blank_len s with
  | Some n =>
      exists j c, n = S j /\ n <= length s /\ after_blank s = Some (drop n s)
                  /\ s !! j = Some c /\ is_crlf c = true
  | None => after_blank s = None
  end.
Proof.
  induction s as [|c t IH]; simpl; [done|].
  destruct (is_ws c); [|done].
  destruct (blank_len t) as [n|].
  - destruct IH as (j & x & -> & Hn & -> & Hx & Hc).
    exists (S j), x. repeat split; try done. lia.
  - rewrite IH. destruct (is_crlf c) eqn:E; [|done].
    exists 0, c. repeat split; try done. simpl. lia.
Qed.

Lemma after_blank_length s r : after_blank s = Some r -> length r < length s.
Proof.
  revert r. induction s as [|c t IH]; simpl; intros r; [done|].
  destruct (is_ws c); [|done].
  destruct (after_blank t) as [u|] eqn:E.
  - intros [= <-]. specialize (IH _ eq_refl). lia.
  - destruct (is_crlf c); [|done]. intros [= <-]. lia.
Qed.

(** After a match of the blank-line pattern no further match starts in
    what is left of the white space: the [\s*] was greedy. *)
Lemma after_blank_greedy s r : after_blank s = Some r -> after_blank r = None.
Proof.
  revert r. induction s as [|c t IH]; simpl; intros r; [done|].
  destruct (is_ws c); [|done].
  destruct (after_blank t) as [u|] eqn:E.
  - intros [= <-]. by apply IH.
  - destruct (is_crlf c); [|done]. by intros [= <-].
Qed.

Lemma nl_run_le s : nl_run s <= length s.
Proof. induction s as [|c t IH]; simpl; [lia|]. destruct (is_nl c); simpl; lia. Qed.

(** ** The four replacements, one step at a time *)

Lemma str_len_ind (P : str -> Prop) :
  (forall s, (forall u, length u < length s -> P u) -> P s) -> forall s, P s.
Proof.
  intros H s. remember (length s) as n eqn:E. revert s E.
  induction n as [n IH] using lt_wf_ind. intros s ->.
  apply H. intros u Hu. by apply (IH (length u)).
Qed.

Lemma strip_line_comments_cons a t :
  strip_line_comments (a :: t)
  = if is_slash a && starts is_slash t
    then strip_line_comments (line_rest (tl t))
    else a :: strip_line_comments t.
Proof.
  unfold strip_line_comments, replace. destruct t as [|b r]; simpl.
  - by rewrite andb_false_r.
  - destruct (is_slash a && is_slash b); simpl.
    + rewrite replace_from_skip by apply line_rest_len_le.
      rewrite drop_line_rest_len. by apply replace_from_prev.
    + done.
Qed.

Lemma strip_block_comments_cons a t :
  strip_block_comments (a :: t)
  = if is_slash a && starts is_star t
    then match after_close (tl t) with
         | Some u => strip_block_comments u
         | None => a :: strip_block_comments t
         end
    else a :: strip_block_comments t.
Proof.
  unfold strip_block_comments, replace. destruct t as [|b r]; simpl.
  - by rewrite andb_false_r.
  - destruct (is_slash a && is_star b); simpl; [|done].
    pose proof (close_len_spec r) as H. destruct (close_len r) as [n|]; simpl.
    + destruct H as [Hn ->]. rewrite replace_from_skip by done.
      by apply replace_from_prev.
    + by rewrite H.
Qed.

Lemma squeeze_at_prev p b s :
  at_line_start p = b ->
  replace_from re_blank_line [10%N] 0 p s = squeeze_at b s.
Proof.
  intros <-. unfold squeeze_at. apply replace_from_prev. intros u.
  unfold re_blank_line. by destruct p as [c|]; simpl; [destruct (is_lt c)|].
Qed.

Lemma squeeze_at_nil b : squeeze_at b [] = [].
Proof. by destruct b. Qed.

Lemma squeeze_at_cons b c t :
  squeeze_at b (c :: t)
  = if b then
      match after_blank (c :: t) with
      | Some r => 10%N :: squeeze_at true r
      | None => c :: squeeze_at (is_lt c) t
      end
    else c :: squeeze_at (is_lt c) t.
Proof.
  destruct b; unfold squeeze_at at 1; cbn [replace_from].
  - change (re_blank_line None (c :: t)) with (blank_len (c :: t)).
    pose proof (blank_len_spec (c :: t)) as H.
    destruct (blank_len (c :: t)) as [n|].
    + destruct H as (j & x & -> & Hn & -> & Hx & Hc). simpl in Hn.
      rewrite replace_from_skip by lia. simpl. f_equal.
      apply squeeze_at_prev. rewrite (prev_after_lookup _ _ _ _ Hx).
      by apply crlf_lt.
    + rewrite H. f_equal. by apply squeeze_at_prev.
  - change (re_blank_line (Some 0%N) (c :: t)) with (@None nat).
    f_equal. by apply squeeze_at_prev.
Qed.

Lemma squeeze_blank_lines_at s : squeeze_blank_lines s = squeeze_at true s.
Proof. done. Qed.

(** ** Inputs on which a replacement changes nothing *)

Lemma strip_line_comments_id s : no_dslash s = true -> strip_line_comments s = s.
Proof.
  induction s as [|a t IH]; [done|]. simpl. intros [H1 H2]%andb_true_iff.
  rewrite strip_line_comments_cons. apply negb_true_iff in H1. rewrite H1.
  by rewrite IH.
Qed.

Lemma strip_block_comments_id s : no_block s = true -> strip_block_comments s = s.
Proof.
  induction s as [|a t IH]; [done|]. simpl. intros [H1 H2]%andb_true_iff.
  rewrite strip_block_comments_cons, IH by done. apply negb_true_iff in H1.
  destruct (is_slash a && starts is_star t); [|done].
  unfold has_close in H1. by destruct (after_close (tl t)).
Qed.

Lemma collapse_newlines_id s : no_nl3 s = true -> collapse_newlines s = s.
Proof.
  unfold collapse_newlines, replace. generalize (@None N).
  induction s as [|c t IH]; intros p; [done|]. simpl.
  intros [H1 H2]%andb_true_iff. apply negb_true_iff in H1.
  unfold re_newlines. simpl nl_run.
  destruct (is_nl c); simpl in *.
  - destruct (nl_run t) as [|[|n]]; simpl in *; try done; by rewrite IH.
  - by rewrite IH.
Qed.

(** ** After the line comments are gone, no two slashes are adjacent *)

Lemma no_dslash_tail a t : no_dslash (a :: t) = true -> no_dslash t = true.
Proof. simpl. by intros [_ ?]%andb_true_iff. Qed.

Lemma no_dslash_line_rest s : no_dslash s = true -> no_dslash (line_rest s) = true.
Proof.
  induction s as [|c t IH]; [done|]. intros H. simpl line_rest.
  destruct (is_lt c); [done|]. by apply IH, (no_dslash_tail c).
Qed.

Lemma no_dslash_after_close s u :
  no_dslash s = true -> after_close s = Some u -> no_dslash u = true.
Proof.
  revert u. induction s as [|a t IH]; intros u H; simpl; [done|].
  apply no_dslash_tail in H.
  destruct (is_star a && starts is_slash t).
  - intros [= <-]. destruct t; [done|]. by apply (no_dslash_tail n).
  - by apply IH.
Qed.

Lemma no_dslash_after_blank s u :
  no_dslash s = true -> after_blank s = Some u -> no_dslash u = true.
Proof.
  revert u. induction s as [|c t IH]; intros u H; simpl; [done|].
  apply no_dslash_tail in H. destruct (is_ws c); [|done].
  destruct (after_blank t) as [r|].
  - intros [= <-]. by apply IH.
  - destruct (is_crlf c); [|done]. by intros [= <-].
Qed.

Lemma starts_strip_line_comments t :
  starts is_slash t = false -> starts is_slash (strip_line_comments t) = false.
Proof.
  destruct t as [|d t]; [done|]. simpl. intros H.
  by rewrite strip_line_comments_cons, H.
Qed.

Lemma strip_line_comments_no_dslash s : no_dslash (strip_line_comments s) = true.
Proof.
  induction s as [s IH] using str_len_ind. destruct s as [|a t]; [done|].
  rewrite strip_line_comments_cons.
  destruct (is_slash a && starts is_slash t) eqn:E.
  - apply IH. destruct t as [|b r]; simpl; [lia|].
    pose proof (line_rest_length r). lia.
  - simpl. rewrite IH by (simpl; lia). rewrite andb_true_r.
    apply negb_true_iff. destruct (is_slash a); [|done]. simpl in *.
    by apply starts_strip_line_comments.
Qed.

(** ** Removing block comments *)

Lemma starts_strip_block_comments p t :
  starts is_slash t = false ->
  starts p (strip_block_comments t) = starts p t.
Proof.
  destruct t as [|d t]; [done|]. simpl. intros H.
  by rewrite strip_block_comments_cons, H.
Qed.

Lemma strip_block_comments_no_dslash s :
  no_dslash s = true -> no_dslash (strip_block_comments s) = true.
Proof.
  induction s as [s IH] using str_len_ind. destruct s as [|a t]; [done|].
  intros H. pose proof (no_dslash_tail _ _ H) as Ht.
  assert (Hemit : no_dslash (a :: strip_block_comments t) = true).
  { simpl. rewrite IH by (simpl; lia || done). rewrite andb_true_r.
    simpl in H. apply andb_true_iff in H as [H _].
    apply negb_true_iff in H. apply negb_true_iff.
    destruct (is_slash a); [|done]. simpl in *.
    by rewrite starts_strip_block_comments. }
  rewrite strip_block_comments_cons.
  destruct (is_slash a && starts is_star t); [|done].
  destruct (after_close (tl t)) as [u|] eqn:E; [|done].
  apply IH.
  - apply after_close_length in E. destruct t; simpl in *; lia.
  - apply (no_dslash_after_close (tl t)); [|done].
    destruct t; [done|]. by apply (no_dslash_tail n).
Qed.

Lemma after_close_tail a t : after_close (a :: t) = None -> after_close t = None.
Proof. simpl. by destruct (is_star a && starts is_slash t). Qed.

(** Without a closing pair there is no block comment to remove. *)
Lemma strip_block_comments_unclosed s :
  after_close s = None -> strip_block_comments s = s.
Proof.
  induction s as [|a t IH]; [done|]. intros H.
  pose proof (after_close_tail _ _ H) as Ht.
  rewrite strip_block_comments_cons, IH by done.
  destruct (is_slash a && starts is_star t); [|done].
  destruct t as [|b r]; [done|]. simpl.
  by rewrite (after_close_tail _ _ Ht).
Qed.

Lemma strip_block_comments_no_block s :
  no_dslash s = true -> no_block (strip_block_comments s) = true.
Proof.
  induction s as [s IH] using str_len_ind. destruct s as [|a t]; [done|].
  intros H. pose proof (no_dslash_tail _ _ H) as Ht.
  rewrite strip_block_comments_cons.
  destruct (is_slash a && starts is_star t) eqn:E.
  - destruct (after_close (tl t)) as [u|] eqn:Eu.
    + apply IH.
      * apply after_close_length in Eu. destruct t; simpl in *; lia.
      * apply (no_dslash_after_close (tl t)); [|done].
        destruct t; [done|]. by apply (no_dslash_tail n).
    + simpl. rewrite IH by (simpl; lia || done). rewrite andb_true_r.
      apply negb_true_iff. apply andb_true_iff in E as [Ea Eb].
      destruct t as [|b r]; [done|]. simpl in Eb, Eu.
      rewrite strip_block_comments_cons, (star_not_slash b Eb). simpl.
      rewrite strip_block_comments_unclosed by done.
      unfold has_close. rewrite Eu. by rewrite !andb_false_r.
  - simpl. rewrite IH by (simpl; lia || done). rewrite andb_true_r.
    apply negb_true_iff. simpl in H.
    destruct (is_slash a) eqn:Ea; [|done]. simpl in *.
    apply andb_true_iff in H as [H _]. apply negb_true_iff in H.
    rewrite starts_strip_block_comments by done. by rewrite E.
Qed.

(** ** Squeezing blank lines *)

Lemma after_blank_drop s r : after_blank s = Some r -> exists n, r = drop n s.
Proof.
  intros H. pose proof (blank_len_spec s) as Hs.
  destruct (blank_len s) as [n|]; [|congruence].
  destruct Hs as (_ & _ & _ & _ & Hr & _). exists n. congruence.
Qed.

Lemma after_blank_not_ws c t : is_ws c = false -> after_blank (c :: t) = None.
Proof. simpl. by intros ->. Qed.

Lemma after_blank_none_nl c t : after_blank (c :: t) = None -> is_nl c = false.
Proof.
  simpl. destruct (is_nl c) eqn:E; [|done].
  rewrite (nl_ws _ E), (nl_crlf _ E). by destruct (after_blank t).
Qed.

Lemma squeeze_at_not_ws b c t :
  is_ws c = false -> squeeze_at b (c :: t) = c :: squeeze_at false t.
Proof.
  intros H. rewrite squeeze_at_cons, (after_blank_not_ws _ _ H).
  rewrite (not_ws_not_lt _ H). by destruct b.
Qed.

(** Without a match at its start the input keeps its first character. *)
Lemma squeeze_at_unmatched b c t :
  after_blank (c :: t) = None ->
  squeeze_at b (c :: t) = c :: squeeze_at (is_lt c) t.
Proof. intros H. rewrite squeeze_at_cons, H. by destruct b. Qed.

Lemma starts_squeeze_at (p : N -> bool) b t :
  p 10%N = false -> starts p (squeeze_at b t) = true -> starts p t = true.
Proof.
  intros Hp. destruct t as [|c t]; [by rewrite squeeze_at_nil|].
  rewrite squeeze_at_cons. destruct b; [|done].
  destruct (after_blank (c :: t)); [|done]. simpl. congruence.
Qed.

Lemma no_dslash_drop n s : no_dslash s = true -> no_dslash (drop n s) = true.
Proof.
  revert s. induction n as [|n IH]; intros [|a t]; try done.
  intros H%no_dslash_tail. by apply IH.
Qed.

Lemma squeeze_at_no_dslash b s :
  no_dslash s = true -> no_dslash (squeeze_at b s) = true.
Proof.
  revert b. induction s as [s IH] using str_len_ind. intros b H.
  destruct s as [|c t]; [by rewrite squeeze_at_nil|].
  assert (Hemit : forall b', no_dslash (c :: squeeze_at b' t) = true).
  { intros b'. simpl. rewrite IH by (simpl; lia || by apply (no_dslash_tail c)).
    rewrite andb_true_r. apply negb_true_iff.
    destruct (is_slash c) eqn:Ec; [|done]. simpl.
    destruct (starts is_slash (squeeze_at b' t)) eqn:E; [|done].
    apply starts_squeeze_at in E; [|done]. simpl in H.
    by rewrite Ec, E in H. }
  rewrite squeeze_at_cons. destruct b; [|done].
  destruct (after_blank (c :: t)) as [r|] eqn:E; [|done].
  change (no_dslash (squeeze_at true r) = true). apply IH.
  - by apply after_blank_length.
  - apply after_blank_drop in E as [n ->]. by apply no_dslash_drop.
Qed.

Lemma no_block_tail a t : no_block (a :: t) = true -> no_block t = true.
Proof. simpl. by intros [_ ?]%andb_true_iff. Qed.

Lemma no_block_drop n s : no_block s = true -> no_block (drop n s) = true.
Proof.
  revert s. induction n as [|n IH]; intros [|a t]; try done.
  intros H%no_block_tail. by apply IH.
Qed.

Lemma after_close_drop n s : after_close s = None -> after_close (drop n s) = None.
Proof.
  revert s. induction n as [|n IH]; intros [|a t]; try done.
  intros H%after_close_tail. by apply IH.
Qed.

(** Squeezing creates no closing pair. *)
Lemma squeeze_at_unclosed b s :
  after_close s = None -> after_close (squeeze_at b s) = None.
Proof.
  revert b. induction s as [s IH] using str_len_ind. intros b H.
  destruct s as [|c t]; [by rewrite squeeze_at_nil|].
  assert (Hemit : forall b', after_close (c :: squeeze_at b' t) = None).
  { intros b'. simpl.
    rewrite IH by (simpl; lia || by apply (after_close_tail c)).
    destruct (is_star c) eqn:Ec; [|done]. simpl.
    destruct (starts is_slash (squeeze_at b' t)) eqn:E; [|done].
    apply starts_squeeze_at in E; [|done]. simpl in H.
    by rewrite Ec, E in H. }
  rewrite squeeze_at_cons. destruct b; [|done].
  destruct (after_blank (c :: t)) as [r|] eqn:E; [|done].
  change (after_close (squeeze_at true r) = None). apply IH.
  - by apply after_blank_length.
  - apply after_blank_drop in E as [n ->]. by apply after_close_drop.
Qed.

Lemma squeeze_at_no_block b s :
  no_block s = true -> no_block (squeeze_at b s) = true.
Proof.
  revert b. induction s as [s IH] using str_len_ind. intros b H.
  destruct s as [|c t]; [by rewrite squeeze_at_nil|].
  assert (Hemit : forall b', no_block (c :: squeeze_at b' t) = true).
  { intros b'. simpl. rewrite IH by (simpl; lia || by apply (no_block_tail c)).
    rewrite andb_true_r. apply negb_true_iff.
    destruct (is_slash c) eqn:Ec; [|done]. simpl.
    destruct (starts is_star (squeeze_at b' t)) eqn:E; [|done]. simpl.
    pose proof (starts_squeeze_at is_star _ _ eq_refl E) as Et.
    destruct t as [|d r]; [done|]. simpl in Et.
    rewrite squeeze_at_not_ws by by apply star_not_ws. simpl.
    simpl in H. rewrite Ec, Et in H. simpl in H.
    unfold has_close in *. destruct (after_close r) eqn:Er; [done|].
    by rewrite squeeze_at_unclosed. }
  rewrite squeeze_at_cons. destruct b; [|done].
  destruct (after_blank (c :: t)) as [r|] eqn:E; [|done].
  change (no_block (squeeze_at true r) = true). apply IH.
  - by apply after_blank_length.
  - apply after_blank_drop in E as [n ->]. by apply no_block_drop.
Qed.

(** *** At most two line feeds in a row after squeezing *)

Lemma nl_run_squeeze_unmatched b s :
  after_blank s = None -> nl_run (squeeze_at b s) = 0.
Proof.
  destruct s as [|c t]; [by rewrite squeeze_at_nil|]. intros H.
  rewrite squeeze_at_unmatched by done. simpl.
  by rewrite (after_blank_none_nl _ _ H).
Qed.

Lemma nl_run_squeeze_line_start s : nl_run (squeeze_at true s) <= 1.
Proof.
  destruct s as [|c t]; [rewrite squeeze_at_nil; simpl; lia|].
  destruct (after_blank (c :: t)) as [r|] eqn:E.
  - rewrite squeeze_at_cons, E. simpl.
    rewrite nl_run_squeeze_unmatched; [lia|]. by apply (after_blank_greedy (c :: t)).
  - rewrite nl_run_squeeze_unmatched by done. lia.
Qed.

Lemma squeeze_at_no_nl3 b s : no_nl3 (squeeze_at b s) = true.
Proof.
  revert b. induction s as [s IH] using str_len_ind. intros b.
  destruct s as [|c t]; [by rewrite squeeze_at_nil|].
  assert (Hemit : no_nl3 (c :: squeeze_at (is_lt c) t) = true).
  { simpl. rewrite IH by (simpl; lia). rewrite andb_true_r.
    apply negb_true_iff. destruct (is_nl c) eqn:Ec; [|done]. simpl.
    rewrite (crlf_lt _ (nl_crlf _ Ec)).
    pose proof (nl_run_squeeze_line_start t).
    destruct (nl_run (squeeze_at true t)) as [|[|n]]; [done|done|lia]. }
  rewrite squeeze_at_cons. destruct b; [|done].
  destruct (after_blank (c :: t)) as [r|] eqn:E; [|done].
  simpl. rewrite IH by by apply after_blank_length.
  rewrite nl_run_squeeze_unmatched; [done|]. by apply (after_blank_greedy (c :: t)).
Qed.

(** *** Squeezing twice *)

Lemma squeeze_at_no_new_match b r :
  after_blank r = None -> after_blank (squeeze_at b r) = None.
Proof.
  revert b. induction r as [|c t IH]; intros b H; [by rewrite squeeze_at_nil|].
  rewrite squeeze_at_unmatched by done. simpl in *.
  destruct (is_ws c); [|done].
  destruct (after_blank t); [done|]. rewrite IH by done. by destruct (is_crlf c).
Qed.

Lemma squeeze_at_idem b s : squeeze_at b (squeeze_at b s) = squeeze_at b s.
Proof.
  revert b. induction s as [s IH] using str_len_ind. intros b.
  destruct s as [|c t]; [by rewrite !squeeze_at_nil|].
  destruct b.
  - destruct (after_blank (c :: t)) as [r|] eqn:E.
    + rewrite squeeze_at_cons, E. rewrite squeeze_at_cons.
      assert (after_blank (10%N :: squeeze_at true r) = Some (squeeze_at true r)) as ->.
      { simpl. rewrite squeeze_at_no_new_match; [done|].
        by apply (after_blank_greedy (c :: t)). }
      rewrite IH; [done|]. by apply after_blank_length.
    + pose proof (squeeze_at_no_new_match true _ E) as E'.
      rewrite squeeze_at_unmatched in E' |- * by done.
      rewrite squeeze_at_unmatched by done.
      rewrite IH; [done|]. simpl; lia.
  - rewrite squeeze_at_cons, squeeze_at_cons, IH; [done|]. simpl; lia.
Qed.

Lemma squeeze_at_length b s : length (squeeze_at b s) <= length s.
Proof.
  revert b. induction s as [s IH] using str_len_ind. intros b.
  destruct s as [|c t]; [by rewrite squeeze_at_nil|].
  assert (Hemit : forall b', length (c :: squeeze_at b' t) <= length (c :: t)).
  { intros b'. simpl. specialize (IH t ltac:(simpl; lia) b'). lia. }
  rewrite squeeze_at_cons. destruct b; [|done].
  destruct (after_blank (c :: t)) as [r|] eqn:E; [|done].
  pose proof (after_blank_length _ _ E) as Hr.
  specialize (IH r Hr true). simpl in *. lia.
Qed.

Lemma after_blank_app p c t :
  is_ws c = false ->
  after_blank (p ++ c :: t) = (fun r => r ++ c :: t) <$> after_blank p.
Proof.
  intros Hc. induction p as [|d p IH]; simpl.
  - by rewrite Hc.
  - destruct (is_ws d); [|done]. rewrite IH.
    destruct (after_blank p); simpl; [done|]. by destruct (is_crlf d).
Qed.

(** A character that is not white space is never part of a match, and
    nothing before it depends on what follows it. *)
Lemma squeeze_at_app b p c t :
  is_ws c = false ->
  squeeze_at b (p ++ c :: t) = squeeze_at b p ++ c :: squeeze_at false t.
Proof.
  intros Hc. revert b. induction p as [p IH] using str_len_ind. intros b.
  destruct p as [|d p].
  - rewrite squeeze_at_nil. by apply squeeze_at_not_ws.
  - change ((d :: p) ++ c :: t) with (d :: (p ++ c :: t)).
    rewrite (squeeze_at_cons b d (p ++ c :: t)), (squeeze_at_cons b d p).
    change (d :: (p ++ c :: t)) with ((d :: p) ++ c :: t).
    rewrite after_blank_app by done.
    destruct b; [|by rewrite IH by (simpl; lia)].
    destruct (after_blank (d :: p)) as [r|] eqn:E; simpl.
    + rewrite IH; [done|]. by apply after_blank_length.
    + by rewrite IH by (simpl; lia).
Qed.

(** ** Trimming *)

Lemma trimStart_app s : exists w, s = w ++ trimStart s.
Proof.
  induction s as [|c t [w IH]]; [by exists []|]. simpl.
  destruct (is_ws c); [|by exists []].
  exists (c :: w). simpl. by f_equal.
Qed.

Lemma trimStart_starts s : starts is_ws (trimStart s) = false.
Proof. induction s as [|c t IH]; [done|]. simpl. by destruct (is_ws c) eqn:E. Qed.

Lemma trimStart_id s : starts is_ws s = false -> trimStart s = s.
Proof. destruct s as [|c t]; [done|]. simpl. by intros ->. Qed.

(** [trim s] is what is left of [s] between some prefix and some suffix;
    it neither starts nor ends with white space. *)
Lemma trim_spec s :
  exists w1 w2, s = w1 ++ trim s ++ w2
    /\ starts is_ws (trim s) = false
    /\ starts is_ws (rev (trim s)) = false.
Proof.
  unfold trim, trimEnd.
  destruct (trimStart_app s) as [w1 H1].
  destruct (trimStart_app (rev (trimStart s))) as [w H2].
  apply (f_equal (@rev N)) in H2. rewrite rev_involutive, rev_app_distr in H2.
  exists w1, (rev w). split; [by rewrite <- H2|]. split.
  - pose proof (trimStart_starts s) as Hs. rewrite H2 in Hs.
    by destruct (rev (trimStart (rev (trimStart s)))).
  - rewrite rev_involutive. apply trimStart_starts.
Qed.

Lemma trim_id s :
  starts is_ws s = false -> starts is_ws (rev s) = false -> trim s = s.
Proof.
  intros H1 H2. unfold trim, trimEnd.
  by rewrite (trimStart_id s), (trimStart_id (rev s)), rev_involutive.
Qed.

Lemma trim_idem s : trim (trim s) = trim s.
Proof. destruct (trim_spec s) as (_ & _ & _ & H1 & H2). by apply trim_id. Qed.

(** ** The invariants pass to any part of a string *)

Lemma starts_app_l (p : N -> bool) a b :
  starts p a = true -> starts p (a ++ b) = true.
Proof. by destruct a. Qed.

Lemma no_dslash_app_l a b : no_dslash (a ++ b) = true -> no_dslash a = true.
Proof.
  induction a as [|x a IH]; [done|]. simpl.
  intros [H1 H2]%andb_true_iff. rewrite IH by done. rewrite andb_true_r.
  apply negb_true_iff in H1. apply negb_true_iff.
  destruct (is_slash x); [|done]. simpl in *.
  destruct (starts is_slash a) eqn:E; [|done].
  by rewrite (starts_app_l _ _ b E) in H1.
Qed.

Lemma after_close_app_l a b : after_close (a ++ b) = None -> after_close a = None.
Proof.
  induction a as [|x a IH]; [done|]. simpl.
  destruct (is_star x); simpl; [|done].
  destruct (starts is_slash a) eqn:E; [|by destruct (starts is_slash (a ++ b))].
  by rewrite (starts_app_l _ _ b E).
Qed.

Lemma no_block_app_l a b : no_block (a ++ b) = true -> no_block a = true.
Proof.
  induction a as [|x a IH]; [done|]. simpl.
  intros [H1 H2]%andb_true_iff. rewrite IH by done. rewrite andb_true_r.
  apply negb_true_iff in H1. apply negb_true_iff.
  destruct (is_slash x); [|done]. simpl in *.
  destruct a as [|y a]; [done|]. simpl in *.
  destruct (is_star y); [|done]. simpl in *.
  unfold has_close in *.
  destruct (after_close (a ++ b)) eqn:E; [done|].
  by rewrite (after_close_app_l _ _ E).
Qed.

Lemma nl_run_app_l a b : nl_run a <= nl_run (a ++ b).
Proof.
  induction a as [|x a IH]; simpl; [lia|]. destruct (is_nl x); lia.
Qed.

Lemma no_nl3_app_l a b : no_nl3 (a ++ b) = true -> no_nl3 a = true.
Proof.
  induction a as [|x a IH]; [done|]. simpl.
  intros [H1 H2]%andb_true_iff. rewrite IH by done. rewrite andb_true_r.
  apply negb_true_iff in H1. apply negb_true_iff.
  destruct (is_nl x); [|done]. simpl in *.
  pose proof (nl_run_app_l a b).
  destruct (nl_run (a ++ b)) as [|[|n]]; destruct (nl_run a) as [|[|m]];
    try done; lia.
Qed.

Lemma no_nl3_drop n s : no_nl3 s = true -> no_nl3 (drop n s) = true.
Proof.
  revert s. induction n as [|n IH]; intros [|a t]; try done. simpl.
  intros [_ H]%andb_true_iff. by apply IH.
Qed.

Lemma trim_keeps (P : str -> bool) s :
  (forall a b, P (a ++ b) = true -> P a = true) ->
  (forall n u, P u = true -> P (drop n u) = true) ->
  P s = true -> P (trim s) = true.
Proof.
  intros Hl Hd H. destruct (trim_spec s) as (w1 & w2 & E & _).
  rewrite E in H. apply (Hd (length w1)) in H.
  rewrite drop_app_length in H. by apply Hl in H.
Qed.

(** *** Trimming a string that squeezing leaves alone *)

Lemma squeeze_at_app_stable b p c t :
  is_ws c = false ->
  squeeze_at b (p ++ c :: t) = p ++ c :: t ->
  squeeze_at b p = p /\ squeeze_at false t = t.
Proof.
  intros Hc H. rewrite squeeze_at_app in H by done.
  assert (length (squeeze_at b p) = length p) as Hlen.
  { pose proof (squeeze_at_length b p). pose proof (squeeze_at_length false t).
    apply (f_equal (@length N)) in H. rewrite !length_app in H. simpl in H. lia. }
  apply app_inj_1 in H as [H1 H2]; [|done]. split; congruence.
Qed.

Lemma squeeze_at_trim s :
  squeeze_at true s = s -> squeeze_at true (trim s) = trim s.
Proof.
  intros H. destruct (trim_spec s) as (w1 & w2 & E & Hs & He).
  destruct (trim s) as [|c m]; [done|]. simpl in Hs.
  rewrite E in H. simpl in H.
  apply squeeze_at_app_stable in H as [_ H]; [|done].
  rewrite squeeze_at_not_ws by done. f_equal.
  destruct m as [|d m _] using rev_ind; [done|].
  change (c :: m ++ [d]) with ((c :: m) ++ [d]) in He.
  rewrite rev_app_distr in He. simpl in He.
  rewrite <- app_assoc in H. simpl in H.
  apply squeeze_at_app_stable in H as [H _]; [|done].
  by rewrite squeeze_at_app, H, squeeze_at_nil.
Qed.

(** ** [cleanCode] *)

(** A string with all five invariants is left as it is. *)
Lemma cleanCode_fixed x :
  no_dslash x = true -> no_block x = true -> squeeze_at true x = x ->
  no_nl3 x = true -> trim x = x -> cleanCode x = x.
Proof.
  intros H1 H2 H3 H4 H5. unfold cleanCode.
  rewrite strip_line_comments_id, strip_block_comments_id by done.
  by rewrite squeeze_blank_lines_at, H3, collapse_newlines_id.
Qed.

(** After the blank lines are squeezed there is never a run of three line
    feeds left to collapse. *)
Lemma cleanCode_without_collapse s :
  cleanCode s
  = trim (squeeze_at true (strip_block_comments (strip_line_comments s))).
Proof.
  unfold cleanCode. rewrite squeeze_blank_lines_at.
  by rewrite collapse_newlines_id by apply squeeze_at_no_nl3.
Qed.

(** C10. [cleanCode] is idempotent: for every string [s], cleaning the
    cleaned string again (comment removal, blank-line normalisation,
    newline collapsing, trimming) returns it unchanged. *)
Theorem cleanCode_idempotent (s : str) : cleanCode (cleanCode s) = cleanCode s.
Proof.
  rewrite (cleanCode_without_collapse s).
  set (y := strip_block_comments (strip_line_comments s)).
  assert (no_dslash y = true) as Hd
    by apply strip_block_comments_no_dslash, strip_line_comments_no_dslash.
  assert (no_block y = true) as Hb
    by apply strip_block_comments_no_block, strip_line_comments_no_dslash.
  apply cleanCode_fixed.
  - apply trim_keeps; [apply no_dslash_app_l | | by apply squeeze_at_no_dslash].
    intros n u. apply no_dslash_drop.
  - apply trim_keeps; [apply no_block_app_l | | by apply squeeze_at_no_block].
    intros n u. apply no_block_drop.
  - apply squeeze_at_trim, squeeze_at_idem.
  - apply trim_keeps; [apply no_nl3_app_l | | apply squeeze_at_no_nl3].
    intros n u. apply no_nl3_drop.
  - apply trim_idem.
Qed.

Example cleanCode_sample :
  cleanCode (js "int x = ____; // set x") = js "int x = ____;".
Proof. reflexivity. Qed.

(** ** The three operations *)

Section ServiceFacts.

Import GeminiService.

Variable JSON_parse : str -> option value.
Variable provider : GoogleGenAI -> Request.t -> settled.

Lemma getClient_present key : key <> [] -> getClient (Some key) = inr {| apiKey := key |}.
Proof. by destruct key. Qed.

Lemma getClient_missing API_KEY :
  API_KEY = None \/ API_KEY = Some [] ->
  getClient API_KEY = inl (Error (js "API Key not found in environment")).
Proof. by intros [-> | ->]. Qed.

Lemma run_missing_key API_KEY op :
  API_KEY = None \/ API_KEY = Some [] ->
  run provider (perform API_KEY JSON_parse op)
  = ([], inl (Error (js "API Key not found in environment"))).
Proof.
  intros H. destruct op; simpl;
    unfold generateQuestion, simulateJavaCode, gradeExam;
    by rewrite (getClient_missing _ H).
Qed.

(** With a key: one request, and the outcome read off the response. *)
Lemma run_perform key op :
  key <> [] ->
  run provider (perform (Some key) JSON_parse op)
  = ([request_of op],
     match parse_response JSON_parse (response_of provider key op) with
     | inl e => inl e
     | inr data => if is_generate op then clean_question data else inr data
     end).
Proof.
  intros Hk. destruct op; simpl;
    unfold generateQuestion, simulateJavaCode, gradeExam;
    rewrite (getClient_present _ Hk); simpl; unfold response_of, request_of;
    simpl.
  - destruct (parse_response _ _) as [e|data]; simpl; [done|].
    by destruct (clean_question data).
  - by destruct (parse_response _ _).
  - by destruct (parse_response _ _).
Qed.

Lemma parse_response_text c t :
  parse_response JSON_parse (Fulfilled (Some (c :: t)))
  = match JSON_parse (c :: t) with
    | Some data => inr data
    | None => inl SyntaxError
    end.
Proof. done. Qed.

Lemma parse_response_empty text :
  text = None \/ text = Some [] ->
  parse_response JSON_parse (Fulfilled text)
  = inl (Error (js "No response from Gemini")).
Proof. by intros [-> | ->]. Qed.

End ServiceFacts.

Lemma clean_question_inr data v :
  GeminiService.clean_question data = inr v <->
  exists m code,
    data = JObject m /\ m !! js "codeSnippet" = Some (JString code)
    /\ v = JObject (<[js "initialCode" := JString (cleanCode code)]>
                     (<[js "codeSnippet" := JString (cleanCode code)]> m)).
Proof.
  unfold GeminiService.clean_question. split.
  - destruct data as [| | | | |m]; try done.
    destruct (m !! js "codeSnippet") as [[| | |code| |]|] eqn:E; try done.
    intros [= <-]. by exists m, code.
  - intros (m & code & -> & -> & ->). done.
Qed.

Ltac js_neq := let H := fresh in intros H; vm_compute in H; discriminate H.

(** What the object literal of [generateQuestion] holds. *)
Lemma cleaned_object_lookup (m : gmap str value) (c : str) :
  let m' := <[js "initialCode" := JString c]> (<[js "codeSnippet" := JString c]> m) in
  m' !! js "initialCode" = Some (JString c)
  /\ m' !! js "codeSnippet" = Some (JString c)
  /\ m' !! js "title" = m !! js "title"
  /\ m' !! js "instructions" = m !! js "instructions"
  /\ m' !! js "solution" = m !! js "solution"
  /\ m' !! js "explanation" = m !! js "explanation".
Proof.
  simpl. repeat split.
  - apply lookup_insert_eq.
  - rewrite lookup_insert_ne by js_neq. apply lookup_insert_eq.
  - by rewrite !lookup_insert_ne by js_neq.
  - by rewrite !lookup_insert_ne by js_neq.
  - by rewrite !lookup_insert_ne by js_neq.
  - by rewrite !lookup_insert_ne by js_neq.
Qed.

(** ** Claims about the service *)

Section ServiceClaims.

Import GeminiService.

(** C3. All grading and simulation logic is outside: for every response
    whose text parses as JSON, [simulateJavaCode] and [gradeExam] return
    exactly the parsed value; nothing is recomputed, clamped or validated. *)
Theorem parsed_result_returned_unchanged
    (JSON_parse : str -> option value)
    (provider : GoogleGenAI -> Request.t -> settled)
    (key : str) (op : operation) (text : str) (v : value) :
  key <> [] ->
  JSON_parse [] = None ->
  is_generate op = false ->
  response_of provider key op = Fulfilled (Some text) ->
  JSON_parse text = Some v ->
  (run provider (perform (Some key) JSON_parse op)).2 = inr v.
Proof.
  intros Hk He Hop Hr Hv. rewrite run_perform by done. simpl.
  rewrite Hr, Hop. destruct text as [|c t]; [congruence|].
  by rewrite parse_response_text, Hv.
Qed.

(** A grade of 7, a style score of 150 and a correctness score of -5 come
    back as they were sent. *)
Lemma parsed_result_returned_unchanged_witness :
  (run (Sample.answer (Some Sample.exam_text))
     (gradeExam (Some Sample.key) Sample.parse_exam (js "int x = 1;")
        Sample.question0 Sample.metrics0 (js "English"))).2
  = inr (JObject Sample.exam_data)
  /\ Sample.exam_data !! js "grade" = Some (JNumber (int 7))
  /\ Sample.exam_data !! js "styleScore" = Some (JNumber (int 150))
  /\ Sample.exam_data !! js "correctnessScore" = Some (JNumber (int (-5))).
Proof.
  split.
  - apply (parsed_result_returned_unchanged Sample.parse_exam
             (Sample.answer (Some Sample.exam_text)) Sample.key
             (GradeExam (js "int x = 1;") Sample.question0 Sample.metrics0
                (js "English"))
             Sample.exam_text (JObject Sample.exam_data)).
    + js_neq.
    + vm_compute. reflexivity.
    + reflexivity.
    + reflexivity.
    + vm_compute. reflexivity.
  - vm_compute. repeat split; reflexivity.
Defined.

(** C8. Whenever [generateQuestion] returns a question for a response that
    parsed, its [initialCode] and its [codeSnippet] are both the cleaned
    snippet of the response, and [title], [instructions], [solution] and
    [explanation] are those of the response. *)
Theorem generateQuestion_cleans_snippet
    (JSON_parse : str -> option value)
    (provider : GoogleGenAI -> Request.t -> settled)
    (key : str) (config : QuizConfig) (text : str) (data q : value) :
  key <> [] ->
  response_of provider key (GenerateQuestion config) = Fulfilled (Some text) ->
  JSON_parse text = Some data ->
  (run provider (generateQuestion (Some key) JSON_parse config)).2 = inr q ->
  exists (m m' : gmap str value) (code : str),
    data = JObject m /\ q = JObject m'
    /\ m !! js "codeSnippet" = Some (JString code)
    /\ m' !! js "initialCode" = Some (JString (cleanCode code))
    /\ m' !! js "codeSnippet" = Some (JString (cleanCode code))
    /\ m' !! js "title" = m !! js "title"
    /\ m' !! js "instructions" = m !! js "instructions"
    /\ m' !! js "solution" = m !! js "solution"
    /\ m' !! js "explanation" = m !! js "explanation".
Proof.
  intros Hk Hr Hd.
  change (generateQuestion (Some key) JSON_parse config)
    with (perform (Some key) JSON_parse (GenerateQuestion config)).
  rewrite run_perform by done. simpl. rewrite Hr.
  destruct text as [|c t]; [done|]. rewrite parse_response_text, Hd.
  intros (m & code & -> & Hc & ->)%clean_question_inr.
  eexists m, _, code. split; [done|]. split; [done|]. split; [done|].
  apply cleaned_object_lookup.
Qed.

Lemma generateQuestion_cleans_snippet_witness :
  exists (m m' : gmap str value) (code : str),
    JObject Sample.question_data = JObject m
    /\ JObject (<[js "initialCode" := JString (js "int x = ____;")]>
                 (<[js "codeSnippet" := JString (js "int x = ____;")]>
                    Sample.question_data)) = JObject m'
    /\ m !! js "codeSnippet" = Some (JString code)
    /\ m' !! js "initialCode" = Some (JString (cleanCode code))
    /\ m' !! js "codeSnippet" = Some (JString (cleanCode code))
    /\ m' !! js "title" = m !! js "title"
    /\ m' !! js "instructions" = m !! js "instructions"
    /\ m' !! js "solution" = m !! js "solution"
    /\ m' !! js "explanation" = m !! js "explanation".
Proof.
  apply (generateQuestion_cleans_snippet Sample.parse_question
           (Sample.answer (Some Sample.question_text)) Sample.key
           Sample.config0 Sample.question_text).
  - js_neq.
  - reflexivity.
  - vm_compute. reflexivity.
  - vm_compute. reflexivity.
Defined.

(** C7, as the code has it.  Each of the three operations throws
    "API Key not found in environment" when the key is unset (or empty),
    throws "No response from Gemini" when the text of the response is
    absent or empty, and otherwise: [simulateJavaCode] and [gradeExam]
    return a result exactly when the text is valid JSON, and
    [generateQuestion] returns one exactly when the text is valid JSON
    that denotes an object whose [codeSnippet] is a string. *)
Theorem operations_errors_and_results
    (API_KEY : option str) (JSON_parse : str -> option value)
    (provider : GoogleGenAI -> Request.t -> settled) (op : operation) :
  let outcome := (run provider (perform API_KEY JSON_parse op)).2 in
  (API_KEY = None \/ API_KEY = Some [] ->
   outcome = inl (Error (js "API Key not found in environment")))
  /\ (forall key, API_KEY = Some key -> key <> [] ->
      (forall text,
         response_of provider key op = Fulfilled text ->
         text = None \/ text = Some [] ->
         outcome = inl (Error (js "No response from Gemini")))
      /\ (forall text,
         response_of provider key op = Fulfilled (Some text) ->
         text <> [] ->
         if is_generate op
         then (exists v, outcome = inr v) <->
              (exists m code, JSON_parse text = Some (JObject m)
                 /\ m !! js "codeSnippet" = Some (JString code))
         else (exists v, outcome = inr v) <->
              (exists data, JSON_parse text = Some data))).
Proof.
  simpl. split.
  - intros H. by rewrite run_missing_key.
  - intros key -> Hk. rewrite run_perform by done. simpl. split.
    + intros text -> Ht. by rewrite parse_response_empty.
    + intros [|c t] -> Ht; [done|]. rewrite parse_response_text.
      destruct (is_generate op).
      * destruct (JSON_parse (c :: t)) as [data|].
        -- split.
           ++ intros [v (m & code & -> & Hc & _)%clean_question_inr].
              by exists m, code.
           ++ intros (m & code & [= ->] & Hc). eexists.
              apply clean_question_inr. by exists m, code.
        -- split; [by intros [v ?]|by intros (m & code & ? & _)].
      * destruct (JSON_parse (c :: t)) as [data|].
        -- split; [by exists data|by exists data].
        -- split; [by intros [v ?]|by intros [data ?]].
Qed.

Lemma operations_errors_and_results_witness :
  (run (Sample.answer (Some Sample.question_text))
     (generateQuestion None Sample.parse_question Sample.config0)).2
  = inl (Error (js "API Key not found in environment"))
  /\ (run (Sample.answer (Some []))
        (generateQuestion (Some Sample.key) Sample.parse_question
           Sample.config0)).2
     = inl (Error (js "No response from Gemini"))
  /\ exists v,
       (run (Sample.answer (Some Sample.question_text))
          (generateQuestion (Some Sample.key) Sample.parse_question
             Sample.config0)).2 = inr v.
Proof.
  split; [|split].
  - apply (operations_errors_and_results None Sample.parse_question
             (Sample.answer (Some Sample.question_text))
             (GenerateQuestion Sample.config0)).
    by left.
  - destruct (operations_errors_and_results (Some Sample.key)
                Sample.parse_question (Sample.answer (Some []))
                (GenerateQuestion Sample.config0)) as [_ H].
    destruct (H Sample.key eq_refl ltac:(js_neq)) as [H1 _].
    apply (H1 (Some [])); [reflexivity|by right].
  - destruct (operations_errors_and_results (Some Sample.key)
                Sample.parse_question
                (Sample.answer (Some Sample.question_text))
                (GenerateQuestion Sample.config0)) as [_ H].
    destruct (H Sample.key eq_refl ltac:(js_neq)) as [_ H2].
    apply (H2 Sample.question_text eq_refl ltac:(js_neq)).
    exists Sample.question_data, (js "int x = ____; // set x").
    split; vm_compute; reflexivity.
Defined.

(** C7 as stated fails for [generateQuestion]: the text of the empty
    object is valid JSON, and no result is returned for it. *)
Lemma generateQuestion_rejects_valid_json :
  Sample.parse_empty_object (js "{}") = Some (JObject ∅)
  /\ (run (Sample.answer (Some (js "{}")))
        (generateQuestion (Some Sample.key) Sample.parse_empty_object
           Sample.config0)).2 = inl TypeError.
Proof. split; vm_compute; reflexivity. Qed.

(** C2, as the code has it.  The module has three operations.  With an API
    key each sends exactly one request, which carries the one prompt built
    from the arguments and the schema fixed for the operation;
    [simulateJavaCode] and [gradeExam] return the parsed text of the
    response, and [generateQuestion] returns the parsed object with its
    [codeSnippet] cleaned and [initialCode] set to the same string. *)
Theorem three_operations_one_request_each
    (JSON_parse : str -> option value)
    (provider : GoogleGenAI -> Request.t -> settled)
    (key : str) (op : operation) :
  key <> [] ->
  ((exists config, op = GenerateQuestion config /\ schema_of op = questionSchema)
   \/ (exists userCode q language,
         op = SimulateJavaCode userCode q language
         /\ schema_of op = simulationSchema)
   \/ (exists userCode q metrics language,
         op = GradeExam userCode q metrics language
         /\ schema_of op = examSchema))
  /\ (exists params,
        (run provider (perform (Some key) JSON_parse op)).1 = [params]
        /\ Request.contents params = prompt_of op
        /\ Request.responseSchema (Request.config_ params) = schema_of op)
  /\ (forall text data,
        response_of provider key op = Fulfilled (Some text) ->
        text <> [] ->
        JSON_parse text = Some data ->
        (run provider (perform (Some key) JSON_parse op)).2
        = if is_generate op then clean_question data else inr data).
Proof.
  intros Hk. split; [|split].
  - destruct op; [left|right; left|right; right]; naive_solver.
  - rewrite run_perform by done. by eexists.
  - intros [|c t] data Hr Ht Hd; [done|]. rewrite run_perform by done.
    simpl. by rewrite Hr, parse_response_text, Hd.
Qed.

Lemma three_operations_one_request_each_witness :
  exists params,
    (run (Sample.answer (Some Sample.question_text))
       (generateQuestion (Some Sample.key) Sample.parse_question
          Sample.config0)).1 = [params]
    /\ Request.contents params = generateQuestion_prompt Sample.config0
    /\ Request.responseSchema (Request.config_ params) = questionSchema.
Proof.
  destruct (three_operations_one_request_each Sample.parse_question
              (Sample.answer (Some Sample.question_text)) Sample.key
              (GenerateQuestion Sample.config0) ltac:(js_neq))
    as (_ & H & _).
  exact H.
Defined.

(** C2 as stated fails twice: what [generateQuestion] returns is not the
    parsed text of the response, and without an API key no request is
    sent at all. *)
Lemma generateQuestion_result_is_not_the_parsed_text :
  Sample.parse_question Sample.question_text = Some (JObject Sample.question_data)
  /\ (exists v,
        (run (Sample.answer (Some Sample.question_text))
           (generateQuestion (Some Sample.key) Sample.parse_question
              Sample.config0)).2 = inr v
        /\ v <> JObject Sample.question_data)
  /\ (run (Sample.answer (Some Sample.question_text))
        (generateQuestion None Sample.parse_question Sample.config0)).1 = [].
Proof.
  split; [vm_compute; reflexivity|]. split; [|reflexivity].
  eexists. split; [vm_compute; reflexivity|].
  intros H. vm_compute in H. discriminate H.
Qed.

End ServiceClaims.

(** ** The editor *)

Section EditorFacts.

Import Monaco EditorComponent.

Lemma at_blank_spec code : at_blank code = true <-> take 4 code = blank.
Proof.
  destruct code as [|a [|b [|c [|d r]]]]; try (by split).
  simpl. unfold is_underscore. rewrite !andb_true_iff, !N.eqb_eq.
  split.
  - by intros [[[-> ->] ->] ->].
  - by intros [= -> -> -> ->].
Qed.

Lemma occurs_at_0 code : occurs_at code 0 <-> at_blank code = true.
Proof. symmetry. apply at_blank_spec. Qed.

Lemma occurs_at_S c code i : occurs_at (c :: code) (S i) <-> occurs_at code i.
Proof. done. Qed.

(** The matches of the scan: each is an occurrence, they come in increasing
    order and do not overlap, and every occurrence of the placeholder that
    starts after the part still to be skipped lies under one of them. *)
Lemma exec_blanks_spec code index skip :
  (forall i, i ∈ exec_blanks index skip code ->
     index + skip <= i /\ occurs_at code (i - index))
  /\ StronglySorted (fun a b => a + 4 <= b) (exec_blanks index skip code)
  /\ (forall j, skip <= j -> occurs_at code j ->
        exists i, i ∈ exec_blanks index skip code /\ i <= index + j < i + 4).
Proof.
  revert index skip. induction code as [|c t IH]; intros index skip.
  - split; [|split].
    + by intros i ?%elem_of_nil.
    + constructor.
    + intros j _ H. unfold occurs_at in H. by rewrite drop_nil in H.
  - assert (Hshift : forall k,
      (forall i, i ∈ exec_blanks (S index) k t ->
         S index + k <= i /\ occurs_at t (i - S index)) ->
      forall i, i ∈ exec_blanks (S index) k t ->
        index + S k <= i /\ occurs_at (c :: t) (i - index)).
    { intros k H i Hi. destruct (H i Hi) as [Hle Ho]. split; [lia|].
      replace (i - index) with (S (i - S index)) by lia. done. }
    assert (Hcover : forall k,
      (forall j, k <= j -> occurs_at t j ->
         exists i, i ∈ exec_blanks (S index) k t /\ i <= S index + j < i + 4) ->
      forall j, S k <= j -> occurs_at (c :: t) j ->
        exists i, i ∈ exec_blanks (S index) k t /\ i <= index + j < i + 4).
    { intros k H [|j] Hj Ho; [lia|].
      destruct (H j ltac:(lia) Ho) as (i & Hi & ?). exists i. split; [done|lia]. }
    destruct skip as [|k]; cbn [exec_blanks].
    + destruct (at_blank (c :: t)) eqn:E.
      * destruct (IH (S index) 3) as (H1 & H2 & H3). split; [|split].
        -- intros i [->|Hi]%elem_of_cons.
           ++ split; [lia|]. rewrite Nat.sub_diag. by apply occurs_at_0.
           ++ destruct (Hshift 3 H1 i Hi). split; [lia|done].
        -- constructor; [done|]. apply Forall_forall. intros i Hi.
           destruct (H1 i Hi). lia.
        -- intros j _ Hj. destruct (decide (j < 4)) as [Hlt|Hge].
           ++ exists index. split; [by left|lia].
           ++ destruct (Hcover 3 H3 j ltac:(lia) Hj) as (i & Hi & ?).
              exists i. split; [by right|lia].
      * destruct (IH (S index) 0) as (H1 & H2 & H3). split; [|split].
        -- intros i Hi. destruct (Hshift 0 H1 i Hi). split; [lia|done].
        -- done.
        -- intros [|j] _ Hj.
           ++ apply occurs_at_0 in Hj. congruence.
           ++ by apply (Hcover 0 H3); [lia|].
    + destruct (IH (S index) k) as (H1 & H2 & H3). split; [|split].
      * by apply Hshift.
      * done.
      * by apply Hcover.
Qed.

Lemma push_match_model ed model l :
  getModel ed = Some model ->
  flat_map (push_match ed) l
  = map (fun i => blank_decoration (getPositionAt model i) (getPositionAt model (i + 4))) l.
Proof.
  intros H. induction l as [|i l IH]; [done|]. simpl.
  unfold push_match at 1. rewrite H. simpl. by f_equal.
Qed.

Lemma push_match_no_model ed l : getModel ed = None -> flat_map (push_match ed) l = [].
Proof.
  intros H. induction l as [|i l IH]; [done|]. simpl.
  unfold push_match at 1. by rewrite H.
Qed.

(** C6, as the code has it.  For the empty string [updateDecorations]
    returns and leaves the decorations as they are.  For a non-empty string
    the scan finds the occurrences of four underscores from left to right,
    without overlap; when the editor has a model, exactly one decoration is
    added per match, from the position of its first character to the
    position after its last, with the blank styling and hover message; when
    it has none, nothing is added.  Either way the decorations of the last
    update are removed. *)
Theorem updateDecorations_decorates_blanks (r : refs) (code : str) :
  (code = [] -> updateDecorations r code = r)
  /\ (code <> [] ->
      let found := exec_blanks 0 0 code in
      let r' := updateDecorations r code in
      let kept := filter (fun d => d.1 ∉ decorationsRef r) (decorations (editor r)) in
      (forall i, i ∈ found -> occurs_at code i)
      /\ StronglySorted (fun a b => a + 4 <= b) found
      /\ (forall j, occurs_at code j -> exists i, i ∈ found /\ i <= j < i + 4)
      /\ (forall model, getModel (editor r) = Some model ->
            decorationsRef r' = seq (nextId (editor r)) (length found)
            /\ decorations (editor r')
               = kept ++ zip (decorationsRef r')
                   (map (fun i =>
                      {| range :=
                           {| startLineNumber := lineNumber (getPositionAt model i);
                              startColumn := column (getPositionAt model i);
                              endLineNumber := lineNumber (getPositionAt model (i + 4));
                              endColumn := column (getPositionAt model (i + 4)) |};
                         options := blank_options |}) found))
      /\ (getModel (editor r) = None ->
            decorationsRef r' = [] /\ decorations (editor r') = kept)
      /\ (forall id, id ∈ decorationsRef r -> id < nextId (editor r) ->
            id ∉ (decorations (editor r')).*1)).
Proof.
  split; [by intros ->|]. intros Hc. destruct code as [|c t]; [done|].
  cbv zeta. destruct (exec_blanks_spec (c :: t) 0 0) as (H1 & H2 & H3).
  split; [|split; [done|split; [|split; [|split]]]].
  - intros i Hi. destruct (H1 i Hi) as [_ Ho]. by rewrite Nat.sub_0_r in Ho.
  - intros j Hj. destruct (H3 j ltac:(lia) Hj) as (i & Hi & ?). by exists i.
  - intros model Hm. unfold updateDecorations, deltaDecorations. simpl.
    rewrite (push_match_model _ _ _ Hm), length_map. done.
  - intros Hm. unfold updateDecorations, deltaDecorations. simpl.
    rewrite (push_match_no_model _ _ Hm). simpl. by rewrite app_nil_r.
  - intros id Hid Hlt. unfold updateDecorations, deltaDecorations. simpl.
    rewrite fmap_app, elem_of_app. intros [H|H].
    + apply list_elem_of_fmap in H as (d & -> & Hd).
      apply list_elem_of_filter in Hd as [Hd _]. done.
    + apply list_elem_of_fmap in H as ([id' d] & -> & Hd).
      apply elem_of_zip_l in Hd. apply elem_of_seq in Hd. simpl in Hlt. simpl. lia.
Qed.

Lemma updateDecorations_decorates_blanks_witness :
  updateDecorations Sample.refs0 [] = Sample.refs0
  /\ exec_blanks 0 0 (js "int ____ = ____;") = [4; 11]
  /\ decorationsRef (updateDecorations Sample.refs0 (js "int ____ = ____;")) = [1; 2]
  /\ decorations (editor (updateDecorations Sample.refs0 (js "int ____ = ____;")))
     = [ (1, blank_decoration {| lineNumber := 1; column := 5 |}
               {| lineNumber := 1; column := 9 |});
         (2, blank_decoration {| lineNumber := 1; column := 12 |}
               {| lineNumber := 1; column := 16 |}) ].
Proof.
  destruct (updateDecorations_decorates_blanks Sample.refs0 []) as [H0 _].
  split; [by apply H0|]. split; [reflexivity|].
  destruct (updateDecorations_decorates_blanks Sample.refs0
              (js "int ____ = ____;")) as [_ H].
  destruct (H ltac:(js_neq)) as (_ & _ & _ & Hm & _).
  destruct (Hm Sample.model0 eq_refl) as [Hr Hd].
  split; [exact Hr|]. rewrite Hd. reflexivity.
Defined.

(** C6 as stated fails for an editor without a model: the string has an
    occurrence of the placeholder and no decoration is produced. *)
Lemma no_model_no_decoration :
  js "____" <> []
  /\ exec_blanks 0 0 (js "____") = [0]
  /\ decorations (editor (updateDecorations Sample.refs_without_model (js "____"))) = [].
Proof. split; [js_neq|]. split; reflexivity. Qed.

End EditorFacts.

(** ** The quiz state *)

Section AppFacts.

Import App.

Lemma same_ref_refl {A : Type} (o : option (ref A)) : same_ref o o = true.
Proof. destruct o; simpl; [apply Nat.eqb_refl|done]. Qed.

Lemma same_ref_is_some {A : Type} (a b : option (ref A)) :
  same_ref a b = true -> is_some a = is_some b.
Proof. by destruct a, b. Qed.

(** *** [Object.is] *)

Lemma number_is_refl n : number_is n n = true.
Proof.
  destruct n as [m e| |b]; simpl; [apply Z.eqb_refl|done|by destruct b].
Qed.

Lemma number_is_zero_eq a b :
  number_is a b = true -> number_is_zero a = number_is_zero b.
Proof.
  destruct a as [m1 e1| |n1], b as [m2 e2| |n2]; simpl; try done.
  intros H%Z.eqb_eq.
  assert (0 < 2 ^ (e1 - Z.min e1 e2))%Z as Hp1 by (apply Z.pow_pos_nonneg; lia).
  assert (0 < 2 ^ (e2 - Z.min e1 e2))%Z as Hp2 by (apply Z.pow_pos_nonneg; lia).
  destruct (Z.eqb_spec m1 0) as [->|Hm1], (Z.eqb_spec m2 0) as [->|Hm2];
    try done; nia.
Qed.

Lemma Object_is_refl a : Object_is a a = true.
Proof.
  unfold Object_is. destruct (deref a) as [|b|n|s|l|m]; try done.
  - by destruct b.
  - apply number_is_refl.
  - by apply bool_decide_eq_true.
  - apply Nat.eqb_refl.
  - apply Nat.eqb_refl.
Qed.

(** Two values that [Object.is] holds equal are both truthy or both
    falsy. *)
Lemma Object_is_ToBoolean a b :
  Object_is a b = true -> ToBoolean (deref a) = ToBoolean (deref b).
Proof.
  unfold Object_is.
  destruct (deref a) as [|x|x|x|x|x], (deref b) as [|y|y|y|y|y];
    simpl; try done.
  - by destruct x, y.
  - by intros ->%number_is_zero_eq.
  - by intros ->%bool_decide_eq_true.
Qed.

(** A truthy value is not [null]. *)
Lemma Object_is_null a : ToBoolean (deref a) = true -> Object_is a null = false.
Proof. unfold Object_is. by destruct (deref a). Qed.

(** *** What the timer code leaves alone *)

Lemma clear_timer_same_quiz s : same_quiz (clear_timer s) s.
Proof. unfold clear_timer. by destruct (timerRef s) as [[|h]|]. Qed.

Lemma timer_effect_same_quiz now s : same_quiz (timer_effect now s) s.
Proof.
  unfold timer_effect.
  destruct (is_some (question s) && negb (ToBoolean (deref (examResult s))));
    [done|].
  apply clear_timer_same_quiz.
Qed.

Lemma commit_same_quiz now before after : same_quiz (commit now before after) after.
Proof.
  unfold commit. destruct (_ && _); [done|].
  pose proof (timer_effect_same_quiz now (clear_timer after)) as H1.
  pose proof (clear_timer_same_quiz after) as H2.
  unfold same_quiz in *. intuition congruence.
Qed.

Lemma commit_unchanged now before after :
  question after = question before -> examResult after = examResult before ->
  commit now before after = after.
Proof.
  intros Hq He. unfold commit. by rewrite Hq, He, same_ref_refl, Object_is_refl.
Qed.

Lemma clear_timer_counters s :
  startTime (clear_timer s) = startTime s
  /\ attempts (clear_timer s) = attempts s
  /\ elapsedTime (clear_timer s) = elapsedTime s
  /\ timerRef (clear_timer s) = timerRef s
  /\ nextHandle (clear_timer s) = nextHandle s.
Proof.
  unfold clear_timer. by destruct (timerRef s) as [[|h]|] eqn:E; simpl; rewrite ?E.
Qed.

Lemma active_same_quiz s1 s2 : same_quiz s1 s2 -> active s1 = active s2.
Proof. unfold active, has_result. by intros (_ & -> & _ & _ & _ & -> & _). Qed.

Lemma active_true s :
  active s = true <-> question s <> None /\ has_result s = false.
Proof.
  unfold active. destruct (question s), (has_result s); simpl; split;
    try done; by intros [? ?].
Qed.

(** *** The timer invariant *)

Lemma clear_timer_weak s :
  timers_weak s ->
  intervals (clear_timer s) = [] /\ nextHandle (clear_timer s) = nextHandle s
  /\ timerRef (clear_timer s) = timerRef s.
Proof.
  unfold clear_timer. intros [H|(h & Hh & Hr & Hi)].
  - destruct (timerRef s) as [[|h]|] eqn:E; simpl; by rewrite ?H, ?filter_nil.
  - rewrite Hr. destruct h as [|h]; [done|]. simpl. rewrite Hi, Hr.
    by rewrite filter_cons_False by (simpl; intros ?; done).
Qed.

Lemma clear_timer_idle s : intervals s = [] -> intervals (clear_timer s) = [].
Proof.
  intros H. unfold clear_timer, clearInterval.
  destruct (timerRef s) as [[|h]|]; simpl; by rewrite ?H.
Qed.

(** The effect in a state without timers, for an active question. *)
Lemma timer_effect_active now s :
  active s = true -> intervals s = [] ->
  startTime (timer_effect now s) = now
  /\ attempts (timer_effect now s) = 0
  /\ elapsedTime (timer_effect now s) = 0
  /\ timerRef (timer_effect now s) = Some (nextHandle s)
  /\ intervals (timer_effect now s) = [(nextHandle s, 1000)].
Proof.
  unfold active, has_result, timer_effect. intros -> Hi. simpl. by rewrite Hi.
Qed.

(** The effect for no active question leaves the counters alone. *)
Lemma timer_effect_inactive now s :
  active s = false ->
  startTime (timer_effect now s) = startTime s
  /\ attempts (timer_effect now s) = attempts s
  /\ elapsedTime (timer_effect now s) = elapsedTime s.
Proof.
  unfold active, has_result, timer_effect. intros ->.
  destruct (clear_timer_counters s) as (? & ? & ? & _). done.
Qed.

Lemma timer_effect_ok now s :
  intervals s = [] -> 1 <= nextHandle s ->
  timers_ok (timer_effect now s) /\ 1 <= nextHandle (timer_effect now s).
Proof.
  intros Hi Hn.
  pose proof (active_same_quiz _ _ (timer_effect_same_quiz now s)) as Ha.
  unfold timers_ok. rewrite Ha.
  destruct (active s) eqn:E.
  - destruct (timer_effect_active now s E Hi) as (_ & _ & _ & Hr & Hi').
    split; [split; [|done]|].
    + right. exists (nextHandle s). split; [lia|done].
    + unfold active, has_result in E. unfold timer_effect. rewrite E. simpl. lia.
  - unfold active, has_result in E. unfold timer_effect. rewrite E.
    destruct (clear_timer_weak s) as (Hc & Hn' & _); [by left|].
    rewrite Hn'. split; [split; [by left|done]|done].
Qed.

Lemma timers_ok_weak s : timers_ok s -> timers_weak s.
Proof. by intros [? _]. Qed.

Lemma commit_timers now s s1 :
  timers_weak s1 -> 1 <= nextHandle s1 ->
  (is_some (question s1) = is_some (question s) ->
   has_result s1 = has_result s -> timers_ok s1) ->
  timers_ok (commit now s s1) /\ 1 <= nextHandle (commit now s s1).
Proof.
  intros Hw Hn Hok. unfold commit.
  destruct (same_ref (question s) (question s1)) eqn:Eq;
    destruct (Object_is (examResult s) (examResult s1)) eqn:Ee; simpl;
    try (destruct (clear_timer_weak s1 Hw) as (Hc & Hn' & _);
         apply timer_effect_ok; [done|lia]).
  split; [|done]. apply Hok; symmetry.
  - by apply same_ref_is_some.
  - by apply Object_is_ToBoolean.
Qed.

Lemma timers_ok_frame s s1 :
  intervals s1 = intervals s -> timerRef s1 = timerRef s ->
  timers_ok s ->
  is_some (question s1) = is_some (question s) ->
  has_result s1 = has_result s -> timers_ok s1.
Proof.
  unfold timers_ok, timers_weak, active. by intros -> -> H -> ->.
Qed.

Lemma timers_weak_frame s s1 :
  intervals s1 = intervals s -> timerRef s1 = timerRef s ->
  timers_weak s -> timers_weak s1.
Proof. unfold timers_weak. by intros -> ->. Qed.

(** A handler that does not touch the timer keeps the invariant through the
    render that follows. *)
Lemma commit_timers_frame now s s1 :
  intervals s1 = intervals s -> timerRef s1 = timerRef s ->
  nextHandle s1 = nextHandle s ->
  timers_ok s -> 1 <= nextHandle s ->
  timers_ok (commit now s s1) /\ 1 <= nextHandle (commit now s s1).
Proof.
  intros Hi Hr Hn Hok Hle. apply commit_timers.
  - by apply (timers_weak_frame s), timers_ok_weak.
  - lia.
  - by apply timers_ok_frame.
Qed.

Lemma handle_timers now e s :
  timers_ok s -> 1 <= nextHandle s ->
  timers_ok (commit now s (handle e s)) /\ 1 <= nextHandle (commit now s (handle e s)).
Proof.
  intros Hok Hn.
  destruct e as [c| |r| |r| |[result|t]| | | |newCode| |h];
    try (apply commit_timers_frame; try done; simpl;
         unfold handleStartQuiz_settled, handleRunCode, handleRunCode_settled,
           handleFinishExam, handleFinishExam_settled, handleReset,
           catch_setError;
         try destruct r as [?|[|?]]; try destruct t;
         by destruct (question s)).
  (* the exam result arrives: the handler clears the timer itself *)
  simpl. unfold handleFinishExam_settled.
  set (s0 := set_examResult _ _).
  assert (timers_weak s0) as Hw by by apply (timers_weak_frame s), timers_ok_weak.
  destruct (clear_timer_weak s0 Hw) as (Hc & Hn' & Hr).
  apply commit_timers.
  - by left.
  - simpl. rewrite Hn'. done.
  - intros _ _. split; [by left|done].
Qed.

Lemma dispatch_inv now e s s' : inv s -> dispatch now e s = Some s' -> inv s'.
Proof.
  intros (Hn & Hg & Hok). unfold dispatch.
  destruct (enabled e s) eqn:En; [|done]. intros [= <-].
  destruct (handle_timers now e s Hok Hn) as [Hok' Hn'].
  split; [done|]. split; [|done].
  destruct (commit_same_quiz now s (handle e s)) as (_ & -> & _ & _ & _ & _ & -> & _).
  destruct e as [c| |[q|[|m]]| |[sim|[|m]]| |[exam|[|m]]| | | |newCode| |h];
    clear Hok' Hn';
    simpl in *; unfold handleRunCode, handleFinishExam, handleReset, view in *;
    try done; try (destruct (question s) eqn:E; simpl; rewrite ?E; by auto).
  - destruct (isGenerating s); [done|]. by destruct (question s).
  - by destruct (clear_timer_same_quiz
        (set_examResult {| addr := nextAddr s; deref := exam |}
           (set_nextAddr (S (nextAddr s)) s)))
      as (_ & -> & _ & _ & _ & _ & -> & _).
Qed.

Lemma inv_initial : inv initial.
Proof.
  unfold inv, timers_ok. simpl. split; [lia|]. split; [done|].
  split; [by left|done].
Qed.

Lemma reachable_inv s : reachable s -> inv s.
Proof.
  induction 1 as [|now e s s' _ IH Hd]; [apply inv_initial|].
  by apply (dispatch_inv now e s).
Qed.

Lemma run_reachable events s s' : reachable s -> run events s = Some s' -> reachable s'.
Proof.
  revert s. induction events as [|[now e] rest IH]; intros s Hs; simpl.
  - by intros [= <-].
  - destruct (dispatch now e s) as [s1|] eqn:E; [|done].
    apply IH. by apply (reachable_dispatch now e s).
Qed.

Lemma dispatch_Some now e s s' :
  dispatch now e s = Some s' ->
  enabled e s = true /\ s' = commit now s (handle e s).
Proof. unfold dispatch. destruct (enabled e s); [|done]. by intros [= <-]. Qed.

(** What the handler of a grading that has resolved leaves: the result is
    stored, and no timer runs. *)
Lemma finish_resolved_fields s result :
  timers_weak s ->
  let s1 := handleFinishExam_settled (Resolved result) s in
  examResult s1 = {| addr := nextAddr s; deref := result |}
  /\ question s1 = question s
  /\ intervals s1 = []
  /\ elapsedTime s1 = elapsedTime s /\ attempts s1 = attempts s
  /\ startTime s1 = startTime s
  /\ nextHandle s1 = nextHandle s.
Proof.
  intros Hw. cbv zeta. unfold handleFinishExam_settled.
  set (s0 := set_examResult _ _).
  assert (timers_weak s0) as Hw0 by by apply (timers_weak_frame s).
  destruct (clear_timer_weak s0 Hw0) as (Hc & Hn & _).
  destruct (clear_timer_counters s0) as (Hs & Ha & He & _ & _).
  destruct (clear_timer_same_quiz s0) as (_ & Hq & _ & _ & _ & Hx & _).
  simpl. by rewrite Hx, Hq, Hc, He, Ha, Hs, Hn.
Qed.

End AppFacts.

(** ** Claims about the quiz state *)

Section AppClaims.

Import App.

(** C9. With a question, [handleReset] sets [userCode] to the question's
    [initialCode], clears [simulationResult] and adds one to [attempts];
    [question], [examResult], [elapsedTime], [config] and everything else
    stay as they were, also through the render that follows.  Without a
    question it changes nothing. *)
Theorem handleReset_frame (s : state) :
  (forall q, question s = Some q ->
     userCode (handleReset s) = initialCode (deref q)
     /\ simulationResult (handleReset s) = JNull
     /\ attempts (handleReset s) = attempts s + 1
     /\ question (handleReset s) = question s
     /\ examResult (handleReset s) = examResult s
     /\ elapsedTime (handleReset s) = elapsedTime s
     /\ config (handleReset s) = config s
     /\ activeTab (handleReset s) = activeTab s
     /\ startTime (handleReset s) = startTime s
     /\ isGenerating (handleReset s) = isGenerating s
     /\ isSimulating (handleReset s) = isSimulating s
     /\ isGrading (handleReset s) = isGrading s
     /\ error (handleReset s) = error s
     /\ timerRef (handleReset s) = timerRef s
     /\ intervals (handleReset s) = intervals s
     /\ calls (handleReset s) = calls s)
  /\ (question s = None -> handleReset s = s)
  /\ (forall now s', dispatch now ClickReset s = Some s' -> s' = handleReset s).
Proof.
  split; [|split].
  - intros q Hq. unfold handleReset. rewrite Hq. simpl. by rewrite Hq.
  - intros Hq. unfold handleReset. by rewrite Hq.
  - intros now s'. unfold dispatch. destruct (enabled ClickReset s); [|done].
    intros [= <-]. apply commit_unchanged; simpl; unfold handleReset;
      by destruct (question s) eqn:E.
Qed.

Lemma handleReset_frame_witness :
  userCode (handleReset (Sample.after Sample.session_running)) = js "int x = ____;"
  /\ attempts (handleReset (Sample.after Sample.session_running)) = 2
  /\ elapsedTime (handleReset (Sample.after Sample.session_running)) = 1
  /\ handleReset initial = initial.
Proof.
  destruct (handleReset_frame (Sample.after Sample.session_running)) as [H _].
  destruct (H {| addr := 0; deref := Sample.question0 |}
              ltac:(vm_compute; reflexivity))
    as (H1 & _ & H3 & _ & _ & H6 & _).
  destruct (handleReset_frame initial) as (_ & H0 & _).
  split; [exact H1|]. split; [exact H3|]. split; [exact H6|].
  apply H0. reflexivity.
Defined.

(** C1, as the code has it.  In every reachable state: a question is
    installed only when [handleStartQuiz] receives one; while a question is
    active and no exam result exists the editor can be edited, Reset is
    available, and Run is available unless a simulation is in progress; an
    exam result is stored only when [handleFinishExam] receives one; and
    while an exam result is present the editor is read-only and Run, Reset
    and Finish and Grade are disabled.  An exam result exists when
    [examResult] is truthy, which is what the code tests. *)
Theorem quiz_lifecycle (s : state) :
  reachable s ->
  (forall now e s',
     question s = None -> dispatch now e s = Some s' -> question s' <> None ->
     exists q, e = StartSettled (Resolved q))
  /\ (question s <> None -> has_result s = false ->
      view s = QuizScreen
      /\ enabled ClickReset s = true
      /\ enabled ClickRun s = negb (isSimulating s)
      /\ forall newCode, enabled (EditCode newCode) s = true)
  /\ (forall now e s',
     has_result s = false -> dispatch now e s = Some s' -> has_result s' = true ->
     exists result,
       e = FinishSettled (Resolved result) /\ deref (examResult s') = result)
  /\ (has_result s = true ->
      editor_readOnly s = true /\ run_disabled s = true
      /\ reset_disabled s = true /\ finish_disabled s = true
      /\ enabled ClickRun s = false /\ enabled ClickReset s = false
      /\ enabled ClickFinish s = false
      /\ forall newCode, enabled (EditCode newCode) s = false).
Proof.
  intros Hr. destruct (reachable_inv s Hr) as (_ & Hg & _).
  split; [|split; [|split]].
  - intros now e s' Hq [_ ->]%dispatch_Some.
    destruct (commit_same_quiz now s (handle e s)) as (_ & -> & _).
    destruct e as [c| |[q|[|m]]| |[sim|[|m]]| |[exam|[|m]]| | | |newCode| |h];
      simpl;
      unfold handleRunCode, handleFinishExam, handleReset; rewrite ?Hq;
      try done.
    + intros _. by exists q.
    + by destruct (clear_timer_same_quiz
          (set_examResult {| addr := nextAddr s; deref := exam |}
             (set_nextAddr (S (nextAddr s)) s))) as (_ & -> & _).
  - intros Hq He. unfold enabled, view, reset_disabled, run_disabled,
      editor_readOnly. rewrite He.
    destruct (isGenerating s); [by specialize (Hg eq_refl)|].
    destruct (question s); [|done]. simpl.
    by rewrite orb_false_r.
  - intros now e s' He [_ ->]%dispatch_Some. unfold has_result in *.
    destruct (commit_same_quiz now s (handle e s)) as (_ & _ & _ & _ & _ & -> & _).
    destruct e as [c| |[q|[|m]]| |[sim|[|m]]| |[exam|[|m]]| | | |newCode| |h];
      simpl;
      unfold handleRunCode, handleFinishExam, handleReset;
      try done; try (destruct (question s); simpl; by rewrite ?He).
    all: try by rewrite He.
    destruct (clear_timer_same_quiz
      (set_examResult {| addr := nextAddr s; deref := exam |}
         (set_nextAddr (S (nextAddr s)) s))) as (_ & _ & _ & _ & _ & -> & _).
    simpl. intros _. by exists exam.
  - intros He. unfold enabled, editor_readOnly, run_disabled, reset_disabled,
      finish_disabled. rewrite He.
    by rewrite !orb_true_r, !andb_false_r.
Qed.

Lemma session_running_reachable : reachable (Sample.after Sample.session_running).
Proof.
  apply (run_reachable Sample.session_running initial); [constructor|].
  vm_compute. reflexivity.
Qed.

Lemma session_graded_reachable : reachable (Sample.after Sample.session_graded).
Proof.
  apply (run_reachable Sample.session_graded initial); [constructor|].
  vm_compute. reflexivity.
Qed.

Lemma session_review_reachable : reachable (Sample.after Sample.session_review).
Proof.
  apply (run_reachable Sample.session_review initial); [constructor|].
  vm_compute. reflexivity.
Qed.


(** The whole cycle: from the set-up a question is installed, the code is
    run and reset, the exam is graded, which locks the editor and the three
    actions, and closing the result gives them back. *)
Lemma quiz_lifecycle_witness :
  question initial = None
  /\ enabled ClickReset (Sample.after Sample.session_running) = true
  /\ editor_readOnly (Sample.after Sample.session_graded) = true
  /\ enabled ClickRun (Sample.after Sample.session_graded) = false
  /\ enabled ClickReset (Sample.after Sample.session_graded) = false
  /\ enabled ClickFinish (Sample.after Sample.session_graded) = false
  /\ enabled ClickRun (Sample.after Sample.session_review) = true.
Proof.
  split; [reflexivity|].
  destruct (quiz_lifecycle _ session_running_reachable) as (_ & H2 & _).
  destruct (H2 ltac:(vm_compute; discriminate) ltac:(vm_compute; reflexivity))
    as (_ & Hreset & _).
  destruct (quiz_lifecycle _ session_graded_reachable) as (_ & _ & _ & H4).
  destruct (H4 ltac:(vm_compute; reflexivity))
    as (Hro & _ & _ & _ & Hrun & Hreset' & Hfin & _).
  destruct (quiz_lifecycle _ session_review_reachable) as (_ & H2' & _).
  destruct (H2' ltac:(vm_compute; discriminate) ltac:(vm_compute; reflexivity))
    as (_ & _ & Hrun' & _).
  repeat split; assumption.
Defined.

(** C1 as stated fails while a simulation is in progress: a question is
    active, no exam result exists, and Run is disabled. *)
Lemma run_unavailable_while_simulating :
  reachable (Sample.after Sample.session_running)
  /\ question (Sample.after Sample.session_running) <> None
  /\ examResult (Sample.after Sample.session_running) = null
  /\ run_disabled (Sample.after Sample.session_running) = true
  /\ enabled ClickRun (Sample.after Sample.session_running) = false.
Proof.
  split; [apply session_running_reachable|].
  split; [vm_compute; discriminate|]. repeat split; vm_compute; reflexivity.
Qed.

(** *** The timer *)

(** The render in which a question becomes active starts the count at 0
    and the timer. *)
Lemma commit_starts_at_0 now before after :
  timers_weak after ->
  active before = false -> active after = true ->
  elapsedTime (commit now before after) = 0
  /\ attempts (commit now before after) = 0
  /\ timerRef (commit now before after) = Some (nextHandle after)
  /\ intervals (commit now before after) = [(nextHandle after, 1000)].
Proof.
  intros Hw Hb Ha. unfold commit.
  destruct (same_ref (question before) (question after)
            && Object_is (examResult before) (examResult after)) eqn:E.
  { apply andb_true_iff in E as [Eq Ee].
    apply same_ref_is_some in Eq. apply Object_is_ToBoolean in Ee.
    unfold active, has_result in *. congruence. }
  destruct (clear_timer_weak after Hw) as (Hc & Hn & _).
  assert (active (clear_timer after) = true) as Ha'
    by by rewrite (active_same_quiz _ _ (clear_timer_same_quiz after)).
  destruct (timer_effect_active now _ Ha' Hc) as (_ & -> & -> & -> & ->).
  by rewrite Hn.
Qed.




End AppClaims.

(** ** The way of the Java text *)

Section CodeFlow.

Import GeminiService.

Lemma app_middle {A : Type} (a b c d e u rest : list A) :
  a ++ b ++ c ++ d ++ e ++ u ++ rest = (a ++ b ++ c ++ d ++ e) ++ u ++ rest.
Proof. by rewrite <- !app_assoc. Qed.

(** C4, as the code has it.  The user's code is embedded verbatim in the
    prompts of [simulateJavaCode] and [gradeExam], and the handlers pass the
    content of the editor to them unchanged.  The generated snippet is not
    taken verbatim from the response: there is one local transformation of
    Java text, [cleanCode], and the snippet that reaches the editor is the
    cleaned one; the solution is taken from the response as it is. *)
Theorem java_text_changes_only_in_cleanCode :
  (forall q language, exists pre post, forall userCode,
     simulateJavaCode_prompt userCode q language = pre ++ userCode ++ post)
  /\ (forall q metrics language, exists pre post, forall userCode,
     gradeExam_prompt userCode q metrics language = pre ++ userCode ++ post)
  /\ (forall data v, clean_question data = inr v ->
      exists (m m' : gmap str value) (code : str),
        data = JObject m /\ v = JObject m'
        /\ m !! js "codeSnippet" = Some (JString code)
        /\ m' !! js "codeSnippet" = Some (JString (cleanCode code))
        /\ m' !! js "initialCode" = Some (JString (cleanCode code))
        /\ m' !! js "solution" = m !! js "solution")
  /\ (forall q s,
      App.userCode (App.handleStartQuiz_settled (App.Resolved q) s) = codeSnippet q)
  /\ (forall newCode s, App.userCode (App.handle (App.EditCode newCode) s) = newCode)
  /\ (forall s q, App.question s = Some q ->
      App.userCode (App.handleReset s) = initialCode (App.deref q))
  /\ (forall s q, App.question s = Some q ->
      exists language,
        App.calls (App.handleRunCode s)
        = SimulateJavaCode (App.userCode s) (App.deref q) language :: App.calls s)
  /\ (forall s q, App.question s = Some q ->
      exists metrics language,
        App.calls (App.handleFinishExam s)
        = GradeExam (App.userCode s) (App.deref q) metrics language :: App.calls s).
Proof.
  split; [|split; [|split; [|split; [|split; [|split; [|split]]]]]].
  - intros q language. eexists _, _. intros userCode. apply app_middle.
  - intros q metrics language. eexists _, _. intros userCode. apply app_middle.
  - intros data v (m & code & -> & Hc & ->)%clean_question_inr.
    eexists m, _, code. split; [done|]. split; [done|]. split; [done|].
    destruct (cleaned_object_lookup m (cleanCode code)) as (H1 & H2 & _ & _ & H5 & _).
    done.
  - done.
  - done.
  - intros s q Hq. unfold App.handleReset. by rewrite Hq.
  - intros s q Hq. unfold App.handleRunCode. rewrite Hq. by eexists.
  - intros s q Hq. unfold App.handleFinishExam. rewrite Hq. by eexists _, _.
Qed.

Lemma java_text_changes_only_in_cleanCode_witness :
  exists (m m' : gmap str value) (code : str),
    JObject Sample.question_data = JObject m
    /\ JObject (<[js "initialCode" := JString (js "int x = ____;")]>
                 (<[js "codeSnippet" := JString (js "int x = ____;")]>
                    Sample.question_data)) = JObject m'
    /\ m !! js "codeSnippet" = Some (JString code)
    /\ m' !! js "codeSnippet" = Some (JString (cleanCode code))
    /\ m' !! js "initialCode" = Some (JString (cleanCode code))
    /\ m' !! js "solution" = m !! js "solution".
Proof.
  destruct java_text_changes_only_in_cleanCode as (_ & _ & H & _).
  apply (H (JObject Sample.question_data)). vm_compute. reflexivity.
Defined.

(** C4 as stated fails for the generated snippet: the response carries a
    snippet with a comment, and the question that is returned carries the
    snippet without it. *)
Lemma generated_snippet_is_rewritten :
  Sample.parse_question Sample.question_text = Some (JObject Sample.question_data)
  /\ Sample.question_data !! js "codeSnippet"
     = Some (JString (js "int x = ____; // set x"))
  /\ exists m',
       (run (Sample.answer (Some Sample.question_text))
          (generateQuestion (Some Sample.key) Sample.parse_question
             Sample.config0)).2 = inr (JObject m')
       /\ m' !! js "codeSnippet" = Some (JString (js "int x = ____;"))
       /\ js "int x = ____;" <> js "int x = ____; // set x".
Proof.
  split; [vm_compute; reflexivity|]. split; [vm_compute; reflexivity|].
  eexists. split; [vm_compute; reflexivity|].
  split; [vm_compute; reflexivity|]. js_neq.
Qed.

End CodeFlow.

(** * More properties *)

(** ** What [cleanCode] returns *)

(** The invariants of a cleaned string. *)
Lemma cleanCode_clean s :
  no_dslash (cleanCode s) = true /\ no_block (cleanCode s) = true
  /\ squeeze_at true (cleanCode s) = cleanCode s
  /\ no_nl3 (cleanCode s) = true /\ trim (cleanCode s) = cleanCode s.
Proof.
  rewrite (cleanCode_without_collapse s).
  set (y := strip_block_comments (strip_line_comments s)).
  assert (no_dslash y = true) as Hd
    by apply strip_block_comments_no_dslash, strip_line_comments_no_dslash.
  assert (no_block y = true) as Hb
    by apply strip_block_comments_no_block, strip_line_comments_no_dslash.
  split; [|split; [|split; [|split]]].
  - apply trim_keeps; [apply no_dslash_app_l | | by apply squeeze_at_no_dslash].
    intros n u. apply no_dslash_drop.
  - apply trim_keeps; [apply no_block_app_l | | by apply squeeze_at_no_block].
    intros n u. apply no_block_drop.
  - apply squeeze_at_trim, squeeze_at_idem.
  - apply trim_keeps; [apply no_nl3_app_l | | apply squeeze_at_no_nl3].
    intros n u. apply no_nl3_drop.
  - apply trim_idem.
Qed.

Lemma no_dslash_no_occurrence x a b : no_dslash x = true -> x <> a ++ js "//" ++ b.
Proof.
  change (js "//") with [47%N; 47%N].
  intros H ->. apply (no_dslash_drop (length a)) in H.
  by rewrite drop_app_length in H.
Qed.

Lemma after_close_found b c : after_close (b ++ js "*/" ++ c) <> None.
Proof.
  change (js "*/") with [42%N; 47%N].
  induction b as [|x b IH]; simpl; [done|].
  by destruct (is_star x && starts is_slash (b ++ 42%N :: 47%N :: c)).
Qed.

Lemma no_block_no_occurrence x a b c :
  no_block x = true -> x <> a ++ js "/*" ++ b ++ js "*/" ++ c.
Proof.
  pose proof (after_close_found b c) as Hc. revert Hc.
  change (js "*/") with [42%N; 47%N]. change (js "/*") with [47%N; 42%N].
  intros Hc H ->. apply (no_block_drop (length a)) in H.
  rewrite drop_app_length in H. simpl in H.
  apply andb_true_iff in H as [H _]. apply negb_true_iff in H.
  unfold has_close in H. simpl in Hc.
  by destruct (after_close (b ++ 42%N :: 47%N :: c)).
Qed.

(** X1. The result of [cleanCode] holds no line comment and no block
    comment: two slashes never follow each other in it, and no slash-star
    is closed by a later star-slash. *)
Theorem cleanCode_leaves_no_comment (s : str) :
  (forall a b, cleanCode s <> a ++ js "//" ++ b)
  /\ (forall a b c, cleanCode s <> a ++ js "/*" ++ b ++ js "*/" ++ c).
Proof.
  destruct (cleanCode_clean s) as (Hd & Hb & _). split.
  - intros a b. by apply no_dslash_no_occurrence.
  - intros a b c. by apply no_block_no_occurrence.
Qed.

Lemma no_nl3_no_occurrence x a b :
  no_nl3 x = true -> x <> a ++ [10%N; 10%N; 10%N] ++ b.
Proof.
  intros H ->. apply (no_nl3_drop (length a)) in H.
  by rewrite drop_app_length in H.
Qed.

(** X2. The result of [cleanCode] neither starts nor ends with a white-space
    character, and it never has three line feeds in a row: at most one
    empty line separates two lines of code. *)
Theorem cleanCode_is_trimmed_and_spaced (s : str) :
  (forall c t, cleanCode s = c :: t -> is_ws c = false)
  /\ (forall t c, cleanCode s = t ++ [c] -> is_ws c = false)
  /\ (forall a b, cleanCode s <> a ++ [10%N; 10%N; 10%N] ++ b).
Proof.
  destruct (cleanCode_clean s) as (_ & _ & _ & Hn & _).
  unfold cleanCode in *.
  destruct (trim_spec (collapse_newlines (squeeze_blank_lines
              (strip_block_comments (strip_line_comments s)))))
    as (_ & _ & _ & Hs & He).
  split; [|split].
  - intros c t E. by rewrite E in Hs.
  - intros t c E. rewrite E, rev_app_distr in He. done.
  - intros a b. by apply no_nl3_no_occurrence.
Qed.

Lemma cleanCode_is_trimmed_and_spaced_witness :
  cleanCode (js " int x; ") = js "int x;" /\ is_ws 105 = false.
Proof.
  split; [vm_compute; reflexivity|].
  destruct (cleanCode_is_trimmed_and_spaced (js " int x; ")) as (H & _).
  apply (H 105%N (js "nt x;")). vm_compute. reflexivity.
Defined.

(** X3. The fourth replacement of [cleanCode] never changes anything: after
    the blank lines are squeezed no run of three line feeds is left, so
    [cleanCode] is the trimmed result of the first three replacements. *)
Theorem collapse_after_squeeze_is_identity (s : str) :
  collapse_newlines (squeeze_blank_lines s) = squeeze_blank_lines s
  /\ cleanCode s
     = trim (squeeze_blank_lines (strip_block_comments (strip_line_comments s))).
Proof.
  split; [|apply cleanCode_without_collapse].
  rewrite squeeze_blank_lines_at. apply collapse_newlines_id, squeeze_at_no_nl3.
Qed.

(** *** Length *)

Lemma strip_line_comments_length s : length (strip_line_comments s) <= length s.
Proof.
  induction s as [s IH] using str_len_ind. destruct s as [|a t]; [done|].
  rewrite strip_line_comments_cons.
  destruct (is_slash a && starts is_slash t).
  - destruct t as [|b r]; simpl.
    + specialize (IH [] ltac:(simpl; lia)). simpl in *. lia.
    + pose proof (line_rest_length r).
      specialize (IH (line_rest r) ltac:(simpl; lia)). lia.
  - simpl. specialize (IH t ltac:(simpl; lia)). lia.
Qed.

Lemma strip_block_comments_length s : length (strip_block_comments s) <= length s.
Proof.
  induction s as [s IH] using str_len_ind. destruct s as [|a t]; [done|].
  assert (length (a :: strip_block_comments t) <= length (a :: t)) as Hemit.
  { simpl. specialize (IH t ltac:(simpl; lia)). lia. }
  rewrite strip_block_comments_cons.
  destruct (is_slash a && starts is_star t); [|done].
  destruct (after_close (tl t)) as [u|] eqn:E; [|done].
  apply after_close_length in E.
  assert (length u < length (a :: t)) as Hu by (destruct t; simpl in *; lia).
  specialize (IH u Hu). lia.
Qed.

Lemma trim_length s : length (trim s) <= length s.
Proof.
  destruct (trim_spec s) as (w1 & w2 & E & _).
  rewrite E at 2. rewrite !length_app. lia.
Qed.

(** X4. [cleanCode] never makes a string longer. *)
Theorem cleanCode_length (s : str) : length (cleanCode s) <= length s.
Proof.
  rewrite cleanCode_without_collapse.
  pose proof (trim_length (squeeze_at true (strip_block_comments
                                              (strip_line_comments s)))).
  pose proof (squeeze_at_length true (strip_block_comments (strip_line_comments s))).
  pose proof (strip_block_comments_length (strip_line_comments s)).
  pose proof (strip_line_comments_length s). lia.
Qed.

(** *** The characters that are not white space *)

Lemma visible_app a b : visible (a ++ b) = visible a ++ visible b.
Proof.
  induction a as [|c a IH]; [done|]. simpl. destruct (is_ws c); [done|].
  simpl. by f_equal.
Qed.

Lemma visible_rev s : visible (rev s) = rev (visible s).
Proof.
  induction s as [|c t IH]; [done|]. simpl. rewrite visible_app, IH. simpl.
  destruct (is_ws c); simpl; [by rewrite app_nil_r|done].
Qed.

Lemma visible_trimStart s : visible (trimStart s) = visible s.
Proof. induction s as [|c t IH]; [done|]. simpl. by destruct (is_ws c) eqn:E; simpl; rewrite ?E. Qed.

Lemma visible_trim s : visible (trim s) = visible s.
Proof.
  unfold trim, trimEnd.
  by rewrite visible_rev, visible_trimStart, visible_rev, rev_involutive,
    visible_trimStart.
Qed.

Lemma visible_after_blank s r : after_blank s = Some r -> visible s = visible r.
Proof.
  revert r. induction s as [|c t IH]; intros r; simpl; [done|].
  destruct (is_ws c); [|done].
  destruct (after_blank t) as [u|].
  - intros [= <-]. by apply IH.
  - destruct (is_crlf c); [|done]. by intros [= <-].
Qed.

Lemma visible_squeeze_at b s : visible (squeeze_at b s) = visible s.
Proof.
  revert b. induction s as [s IH] using str_len_ind. intros b.
  destruct s as [|c t]; [by rewrite squeeze_at_nil|].
  assert (forall b', visible (c :: squeeze_at b' t) = visible (c :: t)) as Hemit.
  { intros b'. simpl. by rewrite IH by (simpl; lia). }
  rewrite squeeze_at_cons. destruct b; [|done].
  destruct (after_blank (c :: t)) as [r|] eqn:E; [|done].
  rewrite (visible_after_blank _ _ E).
  change (visible (squeeze_at true r) = visible r). apply IH.
  by apply after_blank_length.
Qed.

(** X5. Apart from the removal of comments [cleanCode] changes white space
    only: the characters that are not white space are those of the string
    without its comments, in the same order; for a string without comments
    they are those of the string itself. *)
Theorem cleanCode_changes_white_space_only (s : str) :
  visible (cleanCode s) = visible (strip_block_comments (strip_line_comments s))
  /\ (no_dslash s = true -> no_block s = true ->
      visible (cleanCode s) = visible s).
Proof.
  assert (visible (cleanCode s)
          = visible (strip_block_comments (strip_line_comments s))) as H.
  { by rewrite cleanCode_without_collapse, visible_trim, visible_squeeze_at. }
  split; [done|]. intros Hd Hb.
  by rewrite H, strip_line_comments_id, strip_block_comments_id.
Qed.

Lemma cleanCode_changes_white_space_only_witness :
  visible (cleanCode (js "  int x = ____;   "))
  = visible (js "  int x = ____;   ").
Proof.
  destruct (cleanCode_changes_white_space_only (js "  int x = ____;   "))
    as [_ H].
  apply H; reflexivity.
Defined.

(** ** [formatTime] *)

Section FormatTime.

Import Render.

Lemma js_inj a b : js a = js b -> a = b.
Proof.
  revert b. induction a as [|x a IH]; intros [|y b]; simpl; try done.
  intros [= Hxy Hab]. f_equal; [|by apply IH].
  apply (f_equal ascii_of_N) in Hxy. by rewrite !ascii_N_embedding in Hxy.
Qed.

Lemma Number_toString_inj a b :
  GeminiService.Number_toString a = GeminiService.Number_toString b -> a = b.
Proof. unfold GeminiService.Number_toString. intros H%js_inj. by apply (inj pretty). Qed.

(** The seconds of a minute, checked one by one: two digits that spell the
    number. *)
Lemma seconds_field_checked :
  forallb (fun m =>
    match padStart 2 48 (GeminiService.Number_toString m) with
    | [d1; d2] =>
        is_digit d1 && is_digit d2
        && N.eqb ((d1 - 48) * 10 + (d2 - 48)) (N.of_nat m)
    | _ => false
    end) (seq 0 60) = true.
Proof. vm_compute. reflexivity. Qed.

Lemma seconds_field m :
  m < 60 ->
  exists d1 d2,
    padStart 2 48 (GeminiService.Number_toString m) = [d1; d2]
    /\ is_digit d1 = true /\ is_digit d2 = true
    /\ ((d1 - 48) * 10 + (d2 - 48))%N = N.of_nat m.
Proof.
  intros Hm. pose proof seconds_field_checked as H.
  rewrite forallb_forall in H. specialize (H m). 
  destruct (padStart 2 48 (GeminiService.Number_toString m))
    as [|d1 [|d2 [|d3 r]]].
  1,2,4: (discriminate H; apply in_seq; lia).
  exists d1, d2. 
  assert (In m (seq 0 60)) as Hin by (apply in_seq; lia).
  apply H in Hin. apply andb_true_iff in Hin as [[H1 H2]%andb_true_iff H3].
  apply N.eqb_eq in H3. done.
Qed.

(** X6. [formatTime] shows the minutes in decimal, a colon, and the seconds
    of the minute as exactly two decimal digits, with a leading zero below
    ten. *)
Theorem formatTime_fields (seconds : nat) :
  exists d1 d2,
    formatTime seconds
    = GeminiService.Number_toString (seconds / 60) ++ js ":" ++ [d1; d2]
    /\ is_digit d1 = true /\ is_digit d2 = true
    /\ ((d1 - 48) * 10 + (d2 - 48))%N = N.of_nat (seconds mod 60).
Proof.
  destruct (seconds_field (seconds mod 60)) as (d1 & d2 & E & H1 & H2 & H3).
  { apply Nat.mod_upper_bound. lia. }
  exists d1, d2. unfold formatTime. cbv zeta. by rewrite E.
Qed.

(** X7. Two different numbers of seconds are never shown as the same
    text. *)
Theorem formatTime_injective (a b : nat) : formatTime a = formatTime b -> a = b.
Proof.
  destruct (formatTime_fields a) as (a1 & a2 & -> & _ & _ & Ha).
  destruct (formatTime_fields b) as (b1 & b2 & -> & _ & _ & Hb).
  intros H. apply app_inj_2 in H as [Hm Hs]; [|done].
  apply Number_toString_inj in Hm. simpl in Hs. injection Hs as -> ->.
  rewrite Ha in Hb. apply Nat2N.inj in Hb.
  rewrite (Nat.div_mod_eq a 60), (Nat.div_mod_eq b 60). lia.
Qed.

Lemma formatTime_injective_witness : 75 = 75.
Proof. apply formatTime_injective. reflexivity. Defined.

Example formatTime_75 : formatTime 75 = js "1:15".
Proof. vm_compute. reflexivity. Qed.

Example formatTime_605 : formatTime 605 = js "10:05".
Proof. vm_compute. reflexivity. Qed.

End FormatTime.

(** ** More about the three operations *)

Section ServiceMore.

Import GeminiService.

(** X8. Whatever the provider answers, an operation sends at most one
    request, always to the model gemini-2.5-flash with the JSON mime type
    and the same system instruction; a rejection of the call is thrown on
    as it is, and a text that is not JSON ends in a SyntaxError: nothing is
    retried. *)
Theorem requests_are_never_retried
    (API_KEY : option str) (JSON_parse : str -> option value)
    (provider : GoogleGenAI -> Request.t -> settled) (op : operation) :
  length (run provider (perform API_KEY JSON_parse op)).1 <= 1
  /\ (forall params, params ∈ (run provider (perform API_KEY JSON_parse op)).1 ->
        Request.model params = "gemini-2.5-flash"%string
        /\ Request.responseMimeType (Request.config_ params) = "application/json"%string
        /\ Request.systemInstruction (Request.config_ params) = SENIOR_JAVA_DEV_PROMPT
        /\ Request.temperature (Request.config_ params) = temperature_of op)
  /\ (forall key e, API_KEY = Some key -> key <> [] ->
        response_of provider key op = Rejected e ->
        run provider (perform API_KEY JSON_parse op) = ([request_of op], inl e))
  /\ (forall key text, API_KEY = Some key -> key <> [] ->
        response_of provider key op = Fulfilled (Some text) -> text <> [] ->
        JSON_parse text = None ->
        run provider (perform API_KEY JSON_parse op)
        = ([request_of op], inl SyntaxError)).
Proof.
  assert (API_KEY = None \/ API_KEY = Some [] \/ exists key, key <> [] /\ API_KEY = Some key)
    as [H|[H|(key & Hk & ->)]].
  { destruct API_KEY as [[|c k]|]; [by right; left| |by left].
    right; right. by exists (c :: k). }
  1,2: rewrite run_missing_key by tauto; simpl;
       (split; [lia|]); (split; [by intros ? ?%elem_of_nil|]);
       split; intros; congruence.
  rewrite run_perform by done. simpl. split; [lia|]. split; [|split].
  - by intros params ->%list_elem_of_singleton.
  - intros ? e [= <-] _ ->. done.
  - intros ? [|c t] [= <-] _ -> Ht Hp; [done|].
    by rewrite parse_response_text, Hp.
Qed.

Lemma requests_are_never_retried_witness :
  run (fun _ _ => Rejected (Rejection (js "503")))
    (perform (Some Sample.key) Sample.parse_question
       (GenerateQuestion Sample.config0))
  = ([request_of (GenerateQuestion Sample.config0)], inl (Rejection (js "503"))).
Proof.
  destruct (requests_are_never_retried (Some Sample.key) Sample.parse_question
              (fun _ _ => Rejected (Rejection (js "503")))
              (GenerateQuestion Sample.config0)) as (_ & _ & H & _).
  apply (H Sample.key); [reflexivity|js_neq|reflexivity].
Defined.

Lemma string_field_insert_eq (m : gmap str value) k s :
  string_field (<[js k := JString s]> m) k = Some s.
Proof. unfold string_field. by rewrite lookup_insert_eq. Qed.

Lemma string_field_insert_ne (m : gmap str value) k k' v :
  js k <> js k' -> string_field (<[js k := v]> m) k' = string_field m k'.
Proof. intros H. unfold string_field. by rewrite lookup_insert_ne. Qed.

(** X9. When the parsed response is an object whose [title],
    [instructions], [codeSnippet], [solution] and [explanation] are
    strings, [generateQuestion] returns an object that is a
    [GeneratedQuestion]: all six properties are strings, [codeSnippet] and
    [initialCode] are both the cleaned snippet, the others are those of the
    response. *)
Theorem generateQuestion_returns_a_question
    (JSON_parse : str -> option value)
    (provider : GoogleGenAI -> Request.t -> settled)
    (key : str) (config : QuizConfig) (text : str) (m : gmap str value)
    (t i c s e : str) :
  key <> [] ->
  response_of provider key (GenerateQuestion config) = Fulfilled (Some text) ->
  text <> [] ->
  JSON_parse text = Some (JObject m) ->
  string_field m "title" = Some t ->
  string_field m "instructions" = Some i ->
  string_field m "codeSnippet" = Some c ->
  string_field m "solution" = Some s ->
  string_field m "explanation" = Some e ->
  exists v,
    (run provider (generateQuestion (Some key) JSON_parse config)).2 = inr v
    /\ as_GeneratedQuestion v
       = Some {| title := t; instructions := i; codeSnippet := cleanCode c;
                 initialCode := cleanCode c; solution := s; explanation := e |}.
Proof.
  intros Hk Hr Ht Hp H1 H2 H3 H4 H5.
  change (generateQuestion (Some key) JSON_parse config)
    with (perform (Some key) JSON_parse (GenerateQuestion config)).
  rewrite run_perform by done. simpl. rewrite Hr.
  destruct text as [|x text]; [done|]. rewrite parse_response_text, Hp.
  unfold clean_question.
  assert (m !! js "codeSnippet" = Some (JString c)) as ->.
  { unfold string_field in H3.
    by destruct (m !! js "codeSnippet") as [[| | |?| |]|]; simplify_eq. }
  eexists. split; [done|]. unfold as_GeneratedQuestion.
  rewrite string_field_insert_eq.
  rewrite (string_field_insert_ne _ "initialCode" "codeSnippet") by js_neq.
  rewrite string_field_insert_eq.
  rewrite !(string_field_insert_ne _ "initialCode") by js_neq.
  rewrite !(string_field_insert_ne _ "codeSnippet") by js_neq.
  by rewrite H1, H2, H4, H5.
Qed.

Lemma generateQuestion_returns_a_question_witness :
  exists v,
    (run (Sample.answer (Some Sample.question_text))
       (generateQuestion (Some Sample.key) Sample.parse_question Sample.config0)).2
    = inr v
    /\ as_GeneratedQuestion v
       = Some {| title := js "Sum"; instructions := js "Fill the blank";
                 codeSnippet := cleanCode (js "int x = ____; // set x");
                 initialCode := cleanCode (js "int x = ____; // set x");
                 solution := js "int x = 1;"; explanation := js "An int literal" |}.
Proof.
  apply (generateQuestion_returns_a_question Sample.parse_question
           (Sample.answer (Some Sample.question_text)) Sample.key Sample.config0
           Sample.question_text Sample.question_data).
  - js_neq.
  - reflexivity.
  - js_neq.
  - vm_compute. reflexivity.
  - vm_compute. reflexivity.
  - vm_compute. reflexivity.
  - vm_compute. reflexivity.
  - vm_compute. reflexivity.
  - vm_compute. reflexivity.
Defined.

End ServiceMore.

(** ** The prompt of [generateQuestion] tells the configuration *)

Section Prompts.

Import GeminiService.

Ltac elem_of_literal :=
  repeat first [apply list_elem_of_here | apply list_elem_of_further].

Lemma all_configs_complete c : c ∈ all_configs.
Proof.
  destruct c as [d t k l]. unfold all_configs.
  apply list_elem_of_bind. exists d. split; [|destruct d; elem_of_literal].
  apply list_elem_of_bind. exists t. split; [|destruct t; elem_of_literal].
  apply list_elem_of_bind. exists k. split; [|destruct k; elem_of_literal].
  apply list_elem_of_bind. exists l. split; [|destruct l; elem_of_literal].
  apply list_elem_of_here.
Qed.

Lemma str_eqb_refl a : str_eqb a a = true.
Proof. induction a as [|x a IH]; [done|]. simpl. by rewrite N.eqb_refl. Qed.

Lemma config_prompts_checked : prompts_distinct config_prompts = true.
Proof. vm_compute. reflexivity. Qed.

(** X10. Two different quiz configurations never give the same prompt: the
    difficulty, the topic, the task type and the language can all be read
    off the text sent to the model. *)
Theorem generateQuestion_prompt_injective (c1 c2 : QuizConfig) :
  generateQuestion_prompt c1 = generateQuestion_prompt c2 -> c1 = c2.
Proof.
  intros H. pose proof config_prompts_checked as Hc.
  unfold prompts_distinct in Hc. rewrite forallb_forall in Hc.
  assert (forall c, In (c, generateQuestion_prompt c) config_prompts) as Hin.
  { intros c. apply list_elem_of_In. unfold config_prompts.
    apply (list_elem_of_fmap_2 (fun c => (c, generateQuestion_prompt c))).
    apply all_configs_complete. }
  specialize (Hc _ (Hin c1)). rewrite forallb_forall in Hc.
  specialize (Hc _ (Hin c2)). cbn [fst snd] in Hc.
  rewrite H, str_eqb_refl in Hc. by apply bool_decide_eq_true in Hc.
Qed.

Lemma generateQuestion_prompt_injective_witness : Sample.config0 = Sample.config0.
Proof. apply generateQuestion_prompt_injective. reflexivity. Defined.

End Prompts.

(** ** More about the editor *)

Section EditorMore.

Import Monaco EditorComponent EditorProps.

(** X11. The active file of the editor is the first file with the active
    name: a file that has the name and comes after files with other names
    only.  When no file has the name it is the first file; there is none
    only for an empty list of files. *)
Theorem activeFile_found (files : list EditorFile) (activeFileName : str) :
  (forall pre f post,
     files = pre ++ f :: post -> name f = activeFileName ->
     (forall g, g ∈ pre -> name g <> activeFileName) ->
     activeFile files activeFileName = Some f)
  /\ ((forall f, f ∈ files -> name f <> activeFileName) ->
        activeFile files activeFileName = head files)
  /\ (activeFile files activeFileName = None <-> files = []).
Proof.
  split; [|split].
  - intros pre f post -> Hf Hpre. unfold activeFile.
    assert (find (fun f => bool_decide (name f = activeFileName))
              (pre ++ f :: post) = Some f) as ->; [|done].
    induction pre as [|g pre IH]; simpl.
    + by rewrite bool_decide_eq_true_2.
    + rewrite bool_decide_eq_false_2 by (apply Hpre; left).
      apply IH. intros h Hh. apply Hpre. by right.
  - intros Hn. unfold activeFile.
    destruct (find _ files) as [g|] eqn:E; [|done].
    apply find_some in E as [Hin Hg]. apply bool_decide_eq_true in Hg.
    apply list_elem_of_In in Hin. by destruct (Hn g Hin).
  - unfold activeFile.
    destruct (find _ files) as [g|] eqn:E.
    + split; [done|]. intros ->. done.
    + by destruct files.
Qed.

Lemma activeFile_found_witness :
  activeFile
    [ {| name := js "A.java"; language := js "java"; content := [] |};
      {| name := js "B.java"; language := js "java"; content := js "x" |};
      {| name := js "B.java"; language := js "java"; content := js "y" |} ]
    (js "B.java")
  = Some {| name := js "B.java"; language := js "java"; content := js "x" |}.
Proof.
  destruct (activeFile_found
              [ {| name := js "A.java"; language := js "java"; content := [] |};
                {| name := js "B.java"; language := js "java"; content := js "x" |};
                {| name := js "B.java"; language := js "java"; content := js "y" |} ]
              (js "B.java")) as (H & _).
  apply (H [ {| name := js "A.java"; language := js "java"; content := [] |} ]
           {| name := js "B.java"; language := js "java"; content := js "x" |}
           [ {| name := js "B.java"; language := js "java"; content := js "y" |} ]).
  - reflexivity.
  - reflexivity.
  - intros g Hg. apply list_elem_of_singleton in Hg as ->. js_neq.
Defined.

(** *** The decorations the component owns *)

Lemma filter_all_out {A : Type} (P : A -> Prop) `{forall x, Decision (P x)}
    (l : list A) :
  (forall x, x ∈ l -> ~ P x) -> filter P l = [].
Proof.
  induction l as [|x l IH]; intros Hl; [done|].
  rewrite filter_cons_False by (apply Hl; left).
  apply IH. intros y Hy. apply Hl. by right.
Qed.

Lemma exec_blanks_bound code index skip :
  4 * length (exec_blanks index skip code) <= length code - skip.
Proof.
  revert index skip. induction code as [|c t IH]; intros index skip; [simpl; lia|].
  destruct skip as [|k]; cbn [exec_blanks].
  - destruct (at_blank (c :: t)) eqn:E.
    + specialize (IH (S index) 3). cbn [length] in *.
      assert (3 <= length t) by (destruct t as [|? [|? [|? ?]]]; simpl in *; (done || lia)).
      lia.
    + specialize (IH (S index) 0). simpl in *. lia.
  - specialize (IH (S index) k). simpl in *. lia.
Qed.

(** One call of [updateDecorations] on a component that owns all the
    decorations of its editor. *)
Lemma updateDecorations_owned r code :
  (decorations (editor r)).*1 = decorationsRef r ->
  (decorations (editor (updateDecorations r code))).*1
  = decorationsRef (updateDecorations r code)
  /\ getModel (editor (updateDecorations r code)) = getModel (editor r)
  /\ (decorations (editor (updateDecorations r code))).*2
     = match code with
       | [] => (decorations (editor r)).*2
       | _ :: _ => flat_map (push_match (editor r)) (exec_blanks 0 0 code)
       end.
Proof.
  intros Ho. destruct code as [|c t]; [done|].
  unfold updateDecorations, deltaDecorations. simpl.
  rewrite filter_all_out.
  2: { intros d Hd. rewrite <- Ho. intros Hn. apply Hn.
       by apply list_elem_of_fmap_2. }
  simpl. split; [|split; [done|]].
  - apply fst_zip. by rewrite length_seq.
  - apply snd_zip. by rewrite length_seq.
Qed.

(** X12. A component that starts without decorations never leaks one: after
    any sequence of [updateDecorations] calls the editor holds exactly the
    decorations the component tracks in [decorationsRef], and they are those
    of the last non-empty string it was called with (an empty string leaves
    the decorations of the string before it in place). *)
Theorem decorations_follow_the_last_code
    (r : refs) (model : TextModel) (codes : list str) :
  getModel (editor r) = Some model ->
  decorations (editor r) = [] ->
  decorationsRef r = [] ->
  let r' := foldl updateDecorations r codes in
  (decorations (editor r')).*1 = decorationsRef r'
  /\ (decorations (editor r')).*2
     = match last_nonempty codes with
       | Some code => blank_decorations model code
       | None => []
       end.
Proof.
  intros Hm Hd Hr. cbv zeta.
  assert (forall codes r cur,
    getModel (editor r) = Some model ->
    (decorations (editor r)).*1 = decorationsRef r ->
    (decorations (editor r)).*2
      = match cur with
        | Some code => blank_decorations model code
        | None => []
        end ->
    (decorations (editor (foldl updateDecorations r codes))).*1
      = decorationsRef (foldl updateDecorations r codes)
    /\ (decorations (editor (foldl updateDecorations r codes))).*2
       = match match last_nonempty codes with
               | Some code => Some code
               | None => cur
               end with
         | Some code => blank_decorations model code
         | None => []
         end) as Hgen.
  { clear. intros codes. induction codes as [|code rest IH]; intros r cur Hm Ho Hc.
    - done.
    - destruct (updateDecorations_owned r code Ho) as (Ho' & Hm' & Hc').
      rewrite Hm in Hm'. simpl.
      specialize (IH (updateDecorations r code)
                    (match code with [] => cur | _ :: _ => Some code end)
                    Hm' Ho').
      unfold last_nonempty in *. destruct code as [|c t].
      + rewrite filter_cons_False by (by intros ?).
        apply IH. by rewrite Hc'.
      + rewrite filter_cons_True by done. rewrite last_cons.
        destruct (last (filter (fun code => code <> []) rest)); apply IH;
          by rewrite Hc', (push_match_model _ _ _ Hm). }
  destruct (Hgen codes r None Hm) as [H1 H2].
  - by rewrite Hd, Hr.
  - by rewrite Hd.
  - split; [done|]. rewrite H2. by destruct (last_nonempty codes).
Qed.

Lemma decorations_follow_the_last_code_witness :
  (decorations (editor (foldl updateDecorations
     {| editor := {| getModel := Some Sample.model0; decorations := []; nextId := 0 |};
        decorationsRef := [] |}
     [js "____ a ____"; js "int ____ = 1;"; []]))).*2
  = blank_decorations Sample.model0 (js "int ____ = 1;").
Proof.
  destruct (decorations_follow_the_last_code
    {| editor := {| getModel := Some Sample.model0; decorations := []; nextId := 0 |};
       decorationsRef := [] |}
    Sample.model0 [js "____ a ____"; js "int ____ = 1;"; []]
    eq_refl eq_refl eq_refl) as [_ H].
  exact H.
Defined.

(** X13. A non-empty string gives at most one decoration for every four
    of its characters. *)
Theorem decorations_bound (r : refs) (code : str) :
  code <> [] ->
  4 * length (decorationsRef (updateDecorations r code)) <= length code.
Proof.
  intros Hc. destruct code as [|c t]; [done|].
  pose proof (exec_blanks_bound (c :: t) 0 0) as Hb.
  remember (c :: t) as code eqn:Hcode.
  assert (decorationsRef (updateDecorations r code)
          = seq (nextId (editor r))
              (length (flat_map (push_match (editor r)) (exec_blanks 0 0 code))))
    as -> by (by subst code).
  rewrite length_seq.
  destruct (getModel (editor r)) as [model|] eqn:Hm.
  - rewrite (push_match_model _ _ _ Hm), length_map. lia.
  - rewrite (push_match_no_model _ _ Hm). simpl. lia.
Qed.

Lemma decorations_bound_witness :
  4 * length (decorationsRef (updateDecorations Sample.refs0 (js "int ____ = ____;")))
  <= length (js "int ____ = ____;").
Proof. apply decorations_bound. js_neq. Defined.

(** X14. When the string is not empty and holds no placeholder any more,
    [updateDecorations] removes every decoration of a component that owns
    the decorations of its editor. *)
Theorem no_placeholder_no_decoration (r : refs) (code : str) :
  code <> [] ->
  (forall j, ~ occurs_at code j) ->
  (decorations (editor r)).*1 = decorationsRef r ->
  decorations (editor (updateDecorations r code)) = []
  /\ decorationsRef (updateDecorations r code) = [].
Proof.
  intros Hc Hn Ho.
  assert (exec_blanks 0 0 code = []) as Hf.
  { destruct (exec_blanks_spec code 0 0) as (H1 & _).
    destruct (exec_blanks 0 0 code) as [|i l]; [done|].
    destruct (H1 i ltac:(left)) as [_ Hi]. by apply Hn in Hi. }
  destruct (updateDecorations_owned r code Ho) as (Ho' & _ & Hd).
  destruct code as [|c t]; [done|]. rewrite Hf in Hd.
  apply fmap_nil_inv in Hd. rewrite Hd in Ho'. by rewrite Hd, <- Ho'.
Qed.

Lemma no_placeholder_no_decoration_witness :
  decorations (editor (updateDecorations Sample.refs0 (js "int x;"))) = []
  /\ decorationsRef (updateDecorations Sample.refs0 (js "int x;")) = [].
Proof.
  apply no_placeholder_no_decoration.
  - js_neq.
  - intros j H. unfold occurs_at in H.
    do 7 (destruct j as [|j]; [vm_compute in H; discriminate H|]).
    vm_compute in H. discriminate H.
  - reflexivity.
Defined.

End EditorMore.

(** ** More about the quiz state *)

Section AppMore.

Import App.

Lemma message_or_truthy m fallback :
  js fallback <> [] ->
  ToBoolean (message_or m fallback) = true
  /\ (forall v, m = Some v -> ToBoolean v = true -> message_or m fallback = v)
  /\ (m = None \/ (exists v, m = Some v /\ ToBoolean v = false) ->
      message_or m fallback = JString (js fallback)).
Proof.
  intros H. unfold message_or.
  assert (ToBoolean (JString (js fallback)) = true) as Hf
    by (simpl; by destruct (js fallback)).
  destruct m as [v|]; [destruct (ToBoolean v) eqn:E|]; split; try done; split;
    first [ by intros v' [= <-]
          | intros v' [= <-]; congruence
          | intros [?|(v' & [= <-] & ?)]; congruence
          | done ].
Qed.

(** X15. A service call that fails ends in the [catch] block of its
    handler.  When what was thrown is [undefined] or [null], reading its
    [message] throws again and no error is set; otherwise an error is
    shown, which is the [message] of what was thrown when that is truthy and
    a fixed text, not empty, otherwise.  In both cases the flag of the call
    is released and the call is no longer pending; the question, the code,
    the results, the counters and the timer stay as they were. *)
Theorem failed_call_is_caught
    (now : nat) (t : thrown) (e : event) (s s' : state) :
  e = StartSettled (Failed t) \/ e = RunSettled (Failed t)
  \/ e = FinishSettled (Failed t) ->
  dispatch now e s = Some s' ->
  match t with
  | Nullish => error s' = error s
  | Thrown message =>
      ToBoolean (error s') = true
      /\ (forall v, message = Some v -> ToBoolean v = true -> error s' = v)
      /\ (message = None \/ (exists v, message = Some v /\ ToBoolean v = false) ->
          exists text, error s' = JString text /\ text <> [])
  end
  /\ enabled e s' = false
  /\ isGenerating s'
     = match e with StartSettled _ => false | _ => isGenerating s end
  /\ isSimulating s'
     = match e with RunSettled _ => false | _ => isSimulating s end
  /\ isGrading s'
     = match e with FinishSettled _ => false | _ => isGrading s end
  /\ quiz_kept s s'.
Proof.
  intros He [_ ->]%dispatch_Some.
  assert (forall fallback message,
    js fallback <> [] ->
    ToBoolean (message_or message fallback) = true
    /\ (forall v, message = Some v -> ToBoolean v = true ->
          message_or message fallback = v)
    /\ (message = None \/ (exists v, message = Some v /\ ToBoolean v = false) ->
          exists text, message_or message fallback = JString text /\ text <> []))
    as Hm.
  { intros fallback message Hf.
    destruct (message_or_truthy message fallback Hf) as (H1 & H2 & H3).
    split; [done|]. split; [done|]. intros H. eexists. by split; [apply H3|]. }
  destruct He as [->|[->| ->]]; destruct t as [|message];
    rewrite commit_unchanged by done; simpl;
    (split; [first [done | apply Hm; js_neq]|]); repeat split.
Qed.

Lemma failed_call_is_caught_witness :
  error (commit 15 (Sample.after Sample.session_running)
           (handle (RunSettled (Failed (Thrown (Some (JString (js "quota"))))))
              (Sample.after Sample.session_running)))
  = JString (js "quota")
  /\ error (commit 15 (Sample.after Sample.session_running)
              (handle (RunSettled (Failed Nullish))
                 (Sample.after Sample.session_running)))
     = JNull.
Proof.
  split.
  - destruct (failed_call_is_caught 15 (Thrown (Some (JString (js "quota"))))
                (RunSettled (Failed (Thrown (Some (JString (js "quota"))))))
                (Sample.after Sample.session_running)
                (commit 15 (Sample.after Sample.session_running)
                   (handle (RunSettled (Failed (Thrown (Some (JString (js "quota"))))))
                      (Sample.after Sample.session_running))))
      as ((_ & H & _) & _).
    + right. left. reflexivity.
    + vm_compute. reflexivity.
    + apply H; reflexivity.
  - destruct (failed_call_is_caught 15 Nullish (RunSettled (Failed Nullish))
                (Sample.after Sample.session_running)
                (commit 15 (Sample.after Sample.session_running)
                   (handle (RunSettled (Failed Nullish))
                      (Sample.after Sample.session_running))))
      as (H & _).
    + right. left. reflexivity.
    + vm_compute. reflexivity.
    + rewrite H. vm_compute. reflexivity.
Defined.

(** X16. Closing the exam result for review starts a new period of work on
    the same question: the result is gone, the code and the question stay,
    the time and the attempts count from 0 again, the start time is the
    present, and exactly one new timer runs. *)
Theorem review_restarts_the_clock (now : nat) (s s' : state) :
  reachable s ->
  dispatch now ClickReview s = Some s' ->
  examResult s' = null /\ question s' = question s /\ question s' <> None
  /\ userCode s' = userCode s /\ simulationResult s' = simulationResult s
  /\ elapsedTime s' = 0 /\ attempts s' = 0 /\ startTime s' = now
  /\ timerRef s' = Some (nextHandle s)
  /\ intervals s' = [(nextHandle s, 1000)].
Proof.
  intros Hr [En ->]%dispatch_Some.
  destruct (reachable_inv s Hr) as (_ & _ & _ & Hok).
  simpl in En. apply andb_true_iff in En as [Hv Hx].
  unfold view in Hv. destruct (isGenerating s); [done|].
  destruct (question s) as [q|] eqn:Hq; [|done].
  assert (intervals s = []) as Hi.
  { apply Hok. unfold active. by rewrite Hx, andb_false_r. }
  change (handle ClickReview s) with (set_examResult null s).
  destruct (commit_same_quiz now s (set_examResult null s))
    as (_ & Eq & Eu & _ & Es & Ee & _).
  simpl in Eq, Eu, Es, Ee. rewrite Eq, Eu, Es, Ee, Hq.
  do 5 (split; [done|]).
  unfold commit. simpl. rewrite Hq, (Object_is_null _ Hx), same_ref_refl. simpl.
  set (s1 := clear_timer (set_examResult null s)).
  assert (active s1 = true) as Ha.
  { unfold s1. rewrite (active_same_quiz _ _ (clear_timer_same_quiz _)).
    unfold active. simpl. by rewrite Hq. }
  assert (intervals s1 = []) as Hi1 by by apply clear_timer_idle.
  destruct (timer_effect_active now s1 Ha Hi1) as (-> & -> & -> & -> & ->).
  destruct (clear_timer_counters (set_examResult null s)) as (_ & _ & _ & _ & Hn).
  fold s1 in Hn. by rewrite Hn.
Qed.

Lemma review_restarts_the_clock_witness :
  elapsedTime (Sample.after Sample.session_review) = 0
  /\ attempts (Sample.after Sample.session_review) = 0
  /\ startTime (Sample.after Sample.session_review) = 21.
Proof.
  destruct (review_restarts_the_clock 21 (Sample.after Sample.session_graded)
              (Sample.after Sample.session_review))
    as (_ & _ & _ & _ & _ & H1 & H2 & H3 & _).
  - apply session_graded_reachable.
  - vm_compute. reflexivity.
  - by repeat split.
Defined.

(** X17. Going back to the setup leaves the quiz: the setup screen is
    shown, the question, the code, the results and the error are cleared and
    no timer runs; the configuration stays, a simulation or grading that is
    pending is not cancelled, and the counters keep their last values. *)
Theorem back_to_setup (now : nat) (s s' : state) :
  reachable s ->
  dispatch now ClickBackToSetup s = Some s' ->
  view s' = SetupScreen
  /\ question s' = None /\ userCode s' = [] /\ simulationResult s' = JNull
  /\ examResult s' = null /\ error s' = JNull
  /\ intervals s' = []
  /\ config s' = config s /\ calls s' = calls s
  /\ isSimulating s' = isSimulating s /\ isGrading s' = isGrading s
  /\ attempts s' = attempts s /\ elapsedTime s' = elapsedTime s
  /\ startTime s' = startTime s.
Proof.
  intros Hr Hd.
  assert (reachable s') as Hr' by by eapply reachable_dispatch.
  destruct (reachable_inv s' Hr') as (_ & _ & _ & Hok).
  apply dispatch_Some in Hd as [En ->].
  simpl in En. unfold view in En.
  destruct (isGenerating s) eqn:Hg; [done|].
  destruct (question s) as [q|] eqn:Hq; [|done].
  change (handle ClickBackToSetup s) with (handleBackToSetup s) in *.
  destruct (commit_same_quiz now s (handleBackToSetup s))
    as (Ec & Eq & Eu & _ & Es & Ee & Eg & Esi & Egr & Eer & _ & Eca).
  simpl in Ec, Eq, Eu, Es, Ee, Eg, Esi, Egr, Eer, Eca.
  assert (intervals (commit now s (handleBackToSetup s)) = []) as Hi.
  { apply Hok. unfold active. by rewrite Eq. }
  unfold view. rewrite Eg, Hg, Eq.
  do 11 (split; [done|]).
  unfold commit. simpl. rewrite Hq. simpl.
  set (s1 := clear_timer (handleBackToSetup s)).
  assert (active s1 = false) as Ha.
  { unfold s1. by rewrite (active_same_quiz _ _ (clear_timer_same_quiz _)). }
  destruct (timer_effect_inactive now s1 Ha) as (-> & -> & ->). unfold s1.
  by destruct (clear_timer_counters (handleBackToSetup s)) as (-> & -> & -> & _).
Qed.

Lemma back_to_setup_witness :
  view (commit 15 (Sample.after Sample.session_running)
          (handleBackToSetup (Sample.after Sample.session_running))) = SetupScreen
  /\ isSimulating (commit 15 (Sample.after Sample.session_running)
          (handleBackToSetup (Sample.after Sample.session_running))) = true.
Proof.
  destruct (back_to_setup 15 (Sample.after Sample.session_running)
              (commit 15 (Sample.after Sample.session_running)
                 (handleBackToSetup (Sample.after Sample.session_running))))
    as (H1 & _ & _ & _ & _ & _ & _ & _ & _ & H2 & _).
  - apply session_running_reachable.
  - vm_compute. reflexivity.
  - split; [exact H1|]. rewrite H2. vm_compute. reflexivity.
Defined.

(** X18. While a question is being worked on, [attempts] counts the clicks
    on Run and on Reset: each adds one, and no other event changes it,
    except a grading that resolves with a falsy value other than the one
    that is stored, after which the count starts at 0 again; a period of
    work starts at 0. *)
Theorem attempts_count_runs_and_resets (now : nat) (e : event) (s s' : state) :
  reachable s ->
  dispatch now e s = Some s' ->
  (active s = true -> active s' = true ->
   (forall result, e <> FinishSettled (Resolved result)) ->
   attempts s'
   = attempts s + match e with ClickRun | ClickReset => 1 | _ => 0 end)
  /\ (active s = false -> active s' = true -> attempts s' = 0)
  /\ (forall result, e = FinishSettled (Resolved result) -> active s' = true ->
      attempts s'
      = if Object_is (examResult s) (examResult s') then attempts s else 0).
Proof.
  intros Hr [En ->]%dispatch_Some.
  destruct (reachable_inv s Hr) as (_ & Hg & Hw & Hok).
  pose proof (active_same_quiz _ _ (commit_same_quiz now s (handle e s))) as Hs.
  rewrite Hs. split; [|split].
  - intros Ha Ha' Hnf. apply active_true in Ha as [Hq He].
    unfold has_result in He.
    destruct e as [c| |[q|[|m]]| |[sim|[|m]]| |[exam|[|m]]| | | |newCode| |h];
      try (by destruct (Hnf exam));
      simpl in En;
      unfold view, run_disabled, finish_disabled, reset_disabled,
        editor_readOnly, has_result in En;
      try rewrite He in En;
      try (destruct (isGenerating s) eqn:Eg; [by specialize (Hg eq_refl)|]);
      try (destruct (question s) eqn:Eq; [|done]);
      try done;
      try (rewrite commit_unchanged; simpl;
           unfold handleRunCode, handleFinishExam, handleReset,
             handleRunCode_settled, handleFinishExam_settled;
           rewrite ?Eq; simpl; (done || lia)).
  - intros Hb Ha.
    assert (timers_weak (handle e s)) as Hwh.
    { destruct e as [c| |[q|[|m]]| |[sim|[|m]]| |[exam|[|m]]| | | |newCode| |h];
        try (apply (timers_weak_frame s); try done; simpl;
             unfold handleRunCode, handleFinishExam, handleReset;
             by destruct (question s)).
      simpl. destruct (finish_resolved_fields s exam Hw) as (_ & _ & Hi & _).
      by left. }
    by destruct (commit_starts_at_0 now s (handle e s) Hwh Hb Ha) as (_ & -> & _).
  - intros result -> Ha'.
    change (handle (FinishSettled (Resolved result)) s)
      with (handleFinishExam_settled (Resolved result) s) in *.
    destruct (finish_resolved_fields s result Hw)
      as (Hx & Hq & Hi & _ & Hat & _ & _).
    cbv zeta in Hx, Hq, Hi, Hat.
    set (s1 := handleFinishExam_settled (Resolved result) s) in *.
    destruct (commit_same_quiz now s s1) as (_ & _ & _ & _ & _ & -> & _).
    unfold commit. rewrite Hq, same_ref_refl. cbn [andb].
    destruct (Object_is (examResult s) (examResult s1)); [done|].
    assert (timers_weak s1) as Hw1 by by left.
    destruct (clear_timer_weak s1 Hw1) as (Hc & _ & _).
    assert (active (clear_timer s1) = true) as Hac
      by by rewrite (active_same_quiz _ _ (clear_timer_same_quiz s1)).
    by destruct (timer_effect_active now _ Hac Hc) as (_ & -> & _).
Qed.

Lemma attempts_count_runs_and_resets_witness :
  attempts (Sample.after Sample.session_running)
  = attempts (Sample.after (Sample.session_start ++ [(13, Tick 1)])) + 1.
Proof.
  destruct (attempts_count_runs_and_resets 14 ClickRun
              (Sample.after (Sample.session_start ++ [(13, Tick 1)]))
              (Sample.after Sample.session_running)) as [H _].
  - apply (run_reachable (Sample.session_start ++ [(13, Tick 1)]) initial);
      [apply reachable_initial|]. vm_compute. reflexivity.
  - vm_compute. reflexivity.
  - apply H; [vm_compute; reflexivity|vm_compute; reflexivity|done].
Defined.

(** X19. The service is called on three clicks only, once each: Start asks
    for a question for the configuration of the moment; Run sends the code
    in the editor and the question on the screen; Finish sends them with
    the seconds and the attempts counted so far.  An enabled Run or Finish
    always has a question, and no other event calls the service. *)
Theorem calls_follow_clicks (now : nat) (e : event) (s s' : state) :
  dispatch now e s = Some s' ->
  match e with
  | ClickStart => calls s' = GeminiService.GenerateQuestion (config s) :: calls s
  | ClickRun =>
      exists q, question s = Some q
        /\ calls s'
           = GeminiService.SimulateJavaCode (userCode s) (deref q)
               (js (Language_value (language (config s)))) :: calls s
  | ClickFinish =>
      exists q, question s = Some q
        /\ calls s'
           = GeminiService.GradeExam (userCode s) (deref q)
               {| GeminiService.timeSpentSeconds := elapsedTime s;
                  GeminiService.attempts := attempts s |}
               (js (Language_value (language (config s)))) :: calls s
  | _ => calls s' = calls s
  end.
Proof.
  intros [En ->]%dispatch_Some.
  destruct (commit_same_quiz now s (handle e s))
    as (_ & _ & _ & _ & _ & _ & _ & _ & _ & _ & _ & ->).
  destruct e as [c| |[q|[|m]]| |[sim|[|m]]| |[exam|[|m]]| | | |newCode| |h];
    simpl; try done; simpl in En; unfold view in En;
    unfold handleRunCode, handleFinishExam, handleReset;
    try (destruct (isGenerating s); [done|]);
    try (destruct (question s) as [q0|] eqn:Hq; [|done]);
    try done; try (by exists q0).
  by destruct (clear_timer_same_quiz
    (set_examResult {| addr := nextAddr s; deref := exam |}
       (set_nextAddr (S (nextAddr s)) s)))
    as (_ & _ & _ & _ & _ & _ & _ & _ & _ & _ & _ & ->).
Qed.

Lemma calls_follow_clicks_witness :
  exists q, question (Sample.after (Sample.session_start ++ [(13, Tick 1)])) = Some q
    /\ calls (Sample.after Sample.session_running)
       = GeminiService.SimulateJavaCode
           (userCode (Sample.after (Sample.session_start ++ [(13, Tick 1)])))
           (deref q)
           (js (Language_value (language
              (config (Sample.after (Sample.session_start ++ [(13, Tick 1)]))))))
         :: calls (Sample.after (Sample.session_start ++ [(13, Tick 1)])).
Proof.
  apply (calls_follow_clicks 14 ClickRun
           (Sample.after (Sample.session_start ++ [(13, Tick 1)]))
           (Sample.after Sample.session_running)).
  vm_compute. reflexivity.
Defined.

(** X20. In every reachable state the tab is that of the one file, a
    question is never on the screen while one is being generated, no exam
    result exists while one is awaited, and the question and the exam result
    are objects created before the next one, so that a question or result
    stored later is another object than any stored before. *)
Theorem state_invariants (s : state) :
  reachable s ->
  activeTab s = "Main.java"%string
  /\ (isGenerating s = true -> question s = None /\ view s = LoadingScreen)
  /\ (isGrading s = true -> has_result s = false)
  /\ addrs_fresh s.
Proof.
  intros Hr.
  assert (activeTab s = "Main.java"%string
          /\ (isGenerating s = true -> question s = None)
          /\ (isGrading s = true -> has_result s = false)
          /\ addrs_fresh s) as (Ht & Hg & Hgr & Hf).
  2: { split; [done|]. split; [|by split].
       intros Hgen. split; [by apply Hg|]. unfold view. by rewrite Hgen. }
  induction Hr as [|now e s s' _ (Ht & Hg & Hgr & Hq & Hx) Hd].
  { repeat split; try done. by left. }
  apply dispatch_Some in Hd as [En ->]. unfold addrs_fresh, has_result in *.
  destruct (commit_same_quiz now s (handle e s))
    as (_ & -> & _ & -> & _ & -> & -> & _ & -> & _ & -> & _).
  destruct e as [c| |[q|[|m]]| |[sim|[|m]]| |[exam|[|m]]| | | |newCode| |h];
    simpl in En;
    unfold view, run_disabled, finish_disabled, reset_disabled,
      editor_readOnly, has_result in En;
    simpl;
    unfold handleRunCode, handleFinishExam, handleReset,
      handleFinishExam_settled;
    try (destruct (clear_timer_same_quiz
           (set_examResult {| addr := nextAddr s; deref := exam |}
              (set_nextAddr (S (nextAddr s)) s)))
           as (_ & Cq & _ & Ct & _ & Cx & Cg & _ & _ & _ & Ca & _);
         simpl; rewrite ?Cq, ?Ct, ?Cx, ?Cg, ?Ca; clear Cq Ct Cx Cg Ca);
    destruct (isGenerating s) eqn:Eg; destruct (isGrading s) eqn:Egr;
    destruct (question s) as [q0|] eqn:Eq0;
    destruct (ToBoolean (deref (examResult s))) eqn:Ex0;
    simpl in *; try done;
    try (by specialize (Hg eq_refl)); try (by specialize (Hgr eq_refl));
    rewrite ?Eg, ?Egr, ?Eq0, ?Ex0;
    repeat split;
    first [ done
          | by left
          | right; simpl; lia
          | destruct Hx as [Hx|Hx]; [by left|right; lia]
          | intros y [= <-]; simpl; try specialize (Hq _ eq_refl); lia ].
Qed.

Lemma state_invariants_witness :
  activeTab (Sample.after Sample.session_graded) = "Main.java"%string.
Proof.
  destruct (state_invariants (Sample.after Sample.session_graded)) as [H _].
  - apply session_graded_reachable.
  - exact H.
Defined.

End AppMore.

(** ** The editor in the App *)

Section AppEditorMore.

Import App EditorProps AppEditor.

(** X21. In the App the editor always has an active file, the one file
    [Main.java] with the user's code as its content, whatever the active
    tab is; so [handleEditorChange] never fails there, and a change of the
    editor sets [userCode] to the new text, or to the empty string when the
    editor reports no text: it is the [EditCode] event of the state. *)
Theorem editor_change_sets_the_code (s : state) (value : option str) :
  activeFile (editorFiles s) (js (activeTab s))
  = Some {| name := js "Main.java"; language := js "java";
            content := userCode s |}
  /\ editor_changed value s = Some (handle (EditCode (default [] value)) s)
  /\ (forall newCode, value = Some newCode ->
        option_map userCode (editor_changed value s) = Some newCode)
  /\ (value = None -> option_map userCode (editor_changed value s) = Some []).
Proof.
  assert (activeFile (editorFiles s) (js (activeTab s))
          = Some {| name := js "Main.java"; language := js "java";
                    content := userCode s |}) as Ha.
  { unfold activeFile, editorFiles. cbn [find name].
    by destruct (bool_decide _). }
  assert (editor_changed value s = Some (handle (EditCode (default [] value)) s))
    as Hc.
  { unfold editor_changed, handleEditorChange. rewrite Ha.
    by destruct value as [[|c r]|]. }
  split; [done|]. split; [done|]. rewrite Hc. split.
  - by intros newCode ->.
  - by intros ->.
Qed.

Lemma editor_change_sets_the_code_witness :
  option_map userCode
    (editor_changed (Some (js "int x = 1;")) (Sample.after Sample.session_start))
  = Some (js "int x = 1;").
Proof.
  destruct (editor_change_sets_the_code (Sample.after Sample.session_start)
              (Some (js "int x = 1;"))) as (_ & _ & H & _).
  apply H. reflexivity.
Defined.

End AppEditorMore.

(** ** The listener of the editor *)

Section EditorListener.

Import Monaco EditorComponent EditorProps.

(** X22. The listener that [handleEditorDidMount] installs keeps the
    decorations with the text of the model: for a component that owns the
    decorations of its editor, after a change they are those of the
    placeholders of the new text, and the component owns them again; only
    for an empty text the earlier decorations stay, and without a model
    nothing happens. *)
Theorem content_change_redecorates (r : refs) :
  (decorations (editor r)).*1 = decorationsRef r ->
  (decorations (editor (onDidChangeModelContent r))).*1
  = decorationsRef (onDidChangeModelContent r)
  /\ match getModel (editor r) with
     | Some model =>
         (decorations (editor (onDidChangeModelContent r))).*2
         = match getValue model with
           | [] => (decorations (editor r)).*2
           | _ :: _ => blank_decorations model (getValue model)
           end
     | None => onDidChangeModelContent r = r
     end.
Proof.
  intros Ho. unfold onDidChangeModelContent.
  destruct (getModel (editor r)) as [model|] eqn:Hm; [|done].
  destruct (updateDecorations_owned r (getValue model) Ho) as (Ho' & _ & Hd).
  split; [done|]. rewrite Hd.
  destruct (getValue model); [done|]. by apply push_match_model.
Qed.

Lemma content_change_redecorates_witness :
  (decorations (editor (onDidChangeModelContent Sample.refs0))).*2
  = blank_decorations Sample.model0 (js "int ____ = ____;").
Proof.
  destruct (content_change_redecorates Sample.refs0) as [_ H].
  - reflexivity.
  - exact H.
Defined.

End EditorListener.
